(** * go-generator-lib: the render pipeline of [internal/implementation]

    A shallow embedding of [implementation.go] (type [GeneratorImpl]) and the
    properties of its parameter resolution, validation and template
    iteration.

    Conventions of the embedding:
    - a Go [interface{}] value is a [Value]; Go's [nil] is [VNil];
    - a Go [(T, error)] result is a [result T]; an [error] is its message;
    - a Go [map[string]T] is a [gmap string T]; the order in which a [range]
      statement enumerates it is chosen by the runtime ([GoRuntime]);
    - the per-call [parameters] map of [Render] is one shared object that
      is mutated in place: it is threaded through the template loop as part
      of the [World], together with the history of the effects performed. *)

From Stdlib Require Import String Ascii.
From stdpp Require Import gmap strings list fin_maps pretty.

Open Scope string_scope.
Open Scope list_scope.
Open Scope stdpp_scope.
Set Warnings "-register-all".

(** ** Values, errors *)

Inductive Value : Type :=
| VNil
| VString (s : string)
| VInt (z : Z)
| VBool (b : bool)
| VList (l : list Value)
| VMap (m : list (string * Value)).

Definition is_nil (v : Value) : bool :=
  match v with VNil => true | _ => false end.

Inductive result (A : Type) : Type :=
| Ok (a : A)
| Err (msg : string).
Arguments Ok {A} a.
Arguments Err {A} msg.

Definition bind_result {A B} (r : result A) (k : A → result B) : result B :=
  match r with
  | Ok a => k a
  | Err e => Err e
  end.

Notation "'let?' x ':=' r 'in' k" := (bind_result r (fun x => k))
  (at level 10, x name, r at level 100, k at level 200).

(** Early-exit loop: [for _, b := range l { a, err = f(a, b); if err != nil { return err } }]. *)
Fixpoint foldM_result {A B} (f : A → B → result A) (a : A) (l : list B) : result A :=
  match l with
  | [] => Ok a
  | b :: l' => let? a' := f a b in foldM_result f a' l'
  end.

(** One pass of a loop that fills a map: compute the entry of [kv.1] with
    [g] and store it. *)
Definition fill_entry {V} (g : string → V → result Value)
    (acc : gmap string Value) (kv : string * V) : result (gmap string Value) :=
  let? x := g kv.1 kv.2 in Ok (<[kv.1 := x]> acc).

(** [m[k]] on a Go map: the zero value [nil] when the key is missing. *)
Definition go_index (m : gmap string Value) (k : string) : Value :=
  default VNil (m !! k).

(** ** Data model ([api] package) *)

Record VariableSpec := {
  Description : string;
  DefaultValue : Value;
  ValidationPattern : string;
}.

Record TemplateSpec := {
  RelativeSourcePath : string;
  RelativeTargetPath : string;
  Condition : string;
  WithItems : list Value;
  JustCopy : bool;
}.

Record GeneratorSpec := {
  Templates : list TemplateSpec;
  Variables : gmap string VariableSpec;
}.

Record RenderSpec := {
  GeneratorName : string;
  Parameters : gmap string Value;
}.

Record Request := {
  SourceBaseDir : string;
  TargetBaseDir : string;
  RenderSpecFile : string;
}.

Record FileResult := {
  FileSuccess : bool;
  RelativeFilePath : string;
  FileErrors : list string;
}.

Record Response := {
  Success : bool;
  RenderedFiles : list FileResult;
  Errors : list string;
}.

(** ** Effects

    What a call does to the outside: reading a template file, running the
    template engine on a string, running a parsed template, writing a file.
    Each entry records the data the call was made with. *)

Inductive Event : Type :=
| EvReadFile (path : string)
| EvRenderString (templateName templateContents : string) (data : gmap string Value)
| EvTemplateWrite (templateName : string) (data : gmap string Value)
| EvWriteFile (path bytes : string).

Record World := {
  parameters : gmap string Value;
  history : list Event;
}.

Definition log (e : Event) (w : World) : World :=
  {| parameters := parameters w; history := history w ++ [e] |}.

Definition set_parameter (k : string) (v : Value) (w : World) : World :=
  {| parameters := <[k := v]> (parameters w); history := history w |}.

(** ** The Go runtime and the collaborators

    [GoRuntime] gathers what the code takes from the Go standard library and
    from the template packages: [text/template] with the sprig function map,
    [regexp.MatchString], [fmt.Sprintf("%v", _)] and the enumeration order
    of the [range] statements over maps.  Nothing is assumed of them except
    that a [range] enumerates each entry of the map exactly once. *)

Class GoRuntime := {
  Template : Type;
  (** [template.New(name).Funcs(sprig.TxtFuncMap()).Parse(contents)] *)
  template_Parse : string → string → result Template;
  (** [tmpl.ExecuteTemplate(&buf, name, data)], then [buf.String()].  The
      execution is taken to read [data] only: a template that writes into
      the map it is given (sprig's [set] and [unset]) is outside the
      model. *)
  template_Execute : Template → string → gmap string Value → result string;
  (** [regexp.MatchString(pattern, s)] *)
  regexp_MatchString : string → string → result bool;
  (** [fmt.Sprintf("%v", val)] *)
  Sprintf_v : Value → string;
  (** [fmt.Sprintf("%d", n)] *)
  Sprintf_d : nat → string;
  (** [for k, v := range genSpec.Variables] in
      [constructRenderSpecWithValuesOrDefaults] *)
  range_Variables_resolve : gmap string VariableSpec → list (string * VariableSpec);
  range_Variables_resolve_perm m : range_Variables_resolve m ≡ₚ map_to_list m;
  (** [for varName, varSpec := range genSpec.Variables] in
      [constructAndValidateParameterMap] *)
  range_Variables_validate : gmap string VariableSpec → list (string * VariableSpec);
  range_Variables_validate_perm m : range_Variables_validate m ≡ₚ map_to_list m;
  (** [for k := range parameters] in [WriteRenderSpecWithValues] *)
  range_parameters : gmap string Value → list (string * Value);
  range_parameters_perm m : range_parameters m ≡ₚ map_to_list m;
}.

(** [Collaborators] gathers the packages [generatordir] (the source
    directory) and [targetdir] (the target directory).  The file operations
    performed inside the template loop see the history of the call so far. *)

Class Collaborators := {
  (** [generatordir.Instance(ctx, dir).ObtainGeneratorSpec(ctx, name)] *)
  ObtainGeneratorSpec : string → string → result GeneratorSpec;
  (** [generatordir.Instance(ctx, dir).ReadFile(ctx, path)] *)
  ReadFile : list Event → string → string → result string;
  (** [targetdir.Instance(ctx, dir).ObtainRenderSpec(ctx, file)] *)
  ObtainRenderSpec : string → string → result RenderSpec;
  (** [targetdir.Instance(ctx, dir).WriteRenderSpec(ctx, renderSpec, file)] *)
  WriteRenderSpec : string → RenderSpec → string → result string;
  (** [targetdir.Instance(ctx, dir).WriteFile(ctx, path, bytes)];
      [None] is Go's [nil] error *)
  WriteFile : list Event → string → string → string → option string;
}.

Section Implementation.
Context `{RT : GoRuntime} `{CO : Collaborators}.

(** *** The template wrapper *)

(** Modelled from the spec: package [templatewrapper] is not among the
    sources.  Section 4.1: a wrapper either copies its source through or
    holds the template parsed from it. *)
Inductive TemplateWrapper : Type :=
| TwCopy (templateContents : string)
| TwTemplate (tmpl : Template).

(** Modelled from the spec: [templatewrapper.New(justCopy, contents, name,
    path).Parse()].  Section 4.1: with [justCopy] nothing is parsed;
    otherwise the source is parsed as a template with the fixed function
    library, and a parse failure is reported at once. *)
Definition templatewrapper_Parse (justCopy : bool) (templateContents templateName : string)
    : result TemplateWrapper :=
  if justCopy then Ok (TwCopy templateContents)
  else let? tmpl := template_Parse templateName templateContents in Ok (TwTemplate tmpl).

(** Modelled from the spec: [tmplw.Write(&buf, name, parameters)].  Section
    4.1: with [justCopy] rendering is the identity over the source bytes
    and the parameters are ignored; otherwise the template is executed
    against the parameter map, and an execution failure is reported. *)
Definition templatewrapper_Write (tmplw : TemplateWrapper) (templateName : string)
    (data : gmap string Value) : result string :=
  match tmplw with
  | TwCopy templateContents => Ok templateContents
  | TwTemplate tmpl => template_Execute tmpl templateName data
  end.

(** *** Response helpers *)

Definition errorResponseToplevel (err : string) : Response :=
  {| Success := false; RenderedFiles := []; Errors := [err] |}.

Definition successResponse (renderedFiles : list FileResult) : Response :=
  {| Success := true; RenderedFiles := renderedFiles; Errors := [] |}.

Definition errorResponseRender (renderedFiles : list FileResult) : Response :=
  {| Success := false; RenderedFiles := renderedFiles;
     Errors := ["an error occurred during rendering, see individual files"] |}.

Definition successFileResult (relativeFilePath : string) : FileResult :=
  {| FileSuccess := true; RelativeFilePath := relativeFilePath; FileErrors := [] |}.

Definition errorFileResult (relativeFilePath : string) (err : string) : FileResult :=
  {| FileSuccess := false; RelativeFilePath := relativeFilePath; FileErrors := [err] |}.

(** *** Resolve with fallback *)

Definition invalid_default_error (variableName err : string) : string :=
  "variable declaration " +:+ variableName +:+
  " has invalid default (this is an error in the generator spec): " +:+ err.

Definition renderStringDefaultFromTemplate (variableName defaultStr : string) : result Value :=
  let templateName := "__defaultvalue_" +:+ variableName in
  match template_Parse templateName defaultStr with
  | Err err => Err (invalid_default_error variableName err)
  | Ok tmpl =>
      match template_Execute tmpl templateName ∅ with
      | Err err => Err (invalid_default_error variableName err)
      | Ok buf => Ok (VString buf)
      end
  end.

(** One pass of the loop of [constructRenderSpecWithValuesOrDefaults] over
    the entry [k, v]; [rsp] is [renderSpec.Parameters] and [supplied] the
    argument [parameters] of the source. *)
Definition resolve_variable (supplied : gmap string Value) (nilDefault : Value)
    (rsp : gmap string Value) (kv : string * VariableSpec) : result (gmap string Value) :=
  let k := kv.1 in
  let v := kv.2 in
  let rsp := <[k := go_index supplied k]> rsp in
  if is_nil (go_index rsp k) then
    match DefaultValue v with
    | VNil => Ok (<[k := nilDefault]> rsp)
    | VString defaultStr =>
        let? renderedDefaultValue := renderStringDefaultFromTemplate k defaultStr in
        Ok (<[k := renderedDefaultValue]> rsp)
    | structured => Ok (<[k := structured]> rsp)
    end
  else Ok rsp.

Definition constructRenderSpecWithValuesOrDefaults (generatorName : string)
    (genSpec : GeneratorSpec) (supplied : gmap string Value) (nilDefault : Value)
    : result RenderSpec :=
  let? rsp := foldM_result (resolve_variable supplied nilDefault) ∅
                (range_Variables_resolve (Variables genSpec)) in
  Ok {| GeneratorName := generatorName; Parameters := rsp |}.

(** The value [constructRenderSpecWithValuesOrDefaults] stores for one
    variable. *)
Definition fallback_value (supplied : gmap string Value) (nilDefault : Value)
    (k : string) (v : VariableSpec) : result Value :=
  if is_nil (go_index supplied k) then
    match DefaultValue v with
    | VNil => Ok nilDefault
    | VString defaultStr => renderStringDefaultFromTemplate k defaultStr
    | structured => Ok structured
    end
  else Ok (go_index supplied k).

(** What the default of a variable resolves to, case by case: a string
    default is rendered as a template of its own against an empty
    parameter map, a structured default is taken as it is, and a variable
    without default gets [nilDefault]. *)
Definition is_default_of (nilDefault : Value) (k : string) (v : VariableSpec) (x : Value)
    : Prop :=
  match DefaultValue v with
  | VNil => x = nilDefault
  | VString defaultStr =>
      ∃ tmpl out, template_Parse ("__defaultvalue_" +:+ k) defaultStr = Ok tmpl ∧
                  template_Execute tmpl ("__defaultvalue_" +:+ k) ∅ = Ok out ∧
                  x = VString out
  | structured => x = structured
  end.

(** The default of a variable is a string whose template fails, with [err]. *)
Definition default_fails (k : string) (v : VariableSpec) (err : string) : Prop :=
  ∃ defaultStr, DefaultValue v = VString defaultStr ∧
    (template_Parse ("__defaultvalue_" +:+ k) defaultStr = Err err ∨
     ∃ tmpl, template_Parse ("__defaultvalue_" +:+ k) defaultStr = Ok tmpl ∧
             template_Execute tmpl ("__defaultvalue_" +:+ k) ∅ = Err err).

(** *** Resolve and validate *)

Definition required_error (varName : string) : string :=
  "parameter '" +:+ varName +:+ "' is required but missing".

Definition invalid_pattern_error (varName err : string) : string :=
  "variable declaration " +:+ varName +:+
  " has invalid pattern (this is an error in the generator spec, not the render request): "
  +:+ err.

Definition pattern_violation_error (varName pattern : string) : string :=
  "value for parameter '" +:+ varName +:+ "' does not match pattern " +:+ pattern.

(** The value a variable resolves to: the render spec's entry when the key
    is there, else the default (a string default rendered). *)
Definition resolved_value (renderSpec : RenderSpec) (varName : string)
    (varSpec : VariableSpec) : result Value :=
  match Parameters renderSpec !! varName with
  | Some val => Ok val
  | None =>
      match DefaultValue varSpec with
      | VString defaultStr => renderStringDefaultFromTemplate varName defaultStr
      | other => Ok other
      end
  end.

(** The checks made on a resolved value. *)
Definition check_value (varName : string) (varSpec : VariableSpec) (val : Value)
    : result Value :=
  if is_nil val then Err (required_error varName)
  else if bool_decide (ValidationPattern varSpec ≠ "") then
    match regexp_MatchString (ValidationPattern varSpec) (Sprintf_v val) with
    | Err err => Err (invalid_pattern_error varName err)
    | Ok false => Err (pattern_violation_error varName (ValidationPattern varSpec))
    | Ok true => Ok val
    end
  else Ok val.

(** One pass of the loop of [constructAndValidateParameterMap]. *)
Definition validate_variable (renderSpec : RenderSpec) (params : gmap string Value)
    (kv : string * VariableSpec) : result (gmap string Value) :=
  let varName := kv.1 in
  let varSpec := kv.2 in
  let? val := resolved_value renderSpec varName varSpec in
  let? val := check_value varName varSpec val in
  Ok (<[varName := val]> params).

Definition constructAndValidateParameterMap (genSpec : GeneratorSpec)
    (renderSpec : RenderSpec) : result (gmap string Value) :=
  foldM_result (validate_variable renderSpec) ∅
    (range_Variables_validate (Variables genSpec)).

(** The value [constructAndValidateParameterMap] stores for one variable. *)
Definition validated_value (renderSpec : RenderSpec) (k : string) (v : VariableSpec)
    : result Value :=
  let? val := resolved_value renderSpec k v in check_value k v val.

(** *** The template loop *)

(** [renderString] returns Go's pair: the rendered text and a [nil] error,
    or the empty string and the error. *)
Definition renderString (data : gmap string Value) (templateName templateContents : string)
    : string * option string :=
  match template_Parse templateName templateContents with
  | Err err => ("", Some err)
  | Ok tmpl =>
      match template_Execute tmpl templateName data with
      | Err err => ("", Some err)
      | Ok buf => (buf, None)
      end
  end.

Definition skip_words : list string := ["false"; "0"; "no"; "skip"].

Definition evaluateCondition (condition : string) (data : gmap string Value)
    (templateName : string) : bool * option string :=
  if bool_decide (condition = "") then (true, None)
  else
    match renderString data templateName condition with
    | (_, Some err) => (false, Some err)
    | (rendered, None) =>
        (bool_decide (rendered ≠ "false") && bool_decide (rendered ≠ "0")
         && bool_decide (rendered ≠ "no") && bool_decide (rendered ≠ "skip"), None)
    end.

Definition renderAndWriteFile (tmplw : TemplateWrapper) (templateName targetDir targetPath : string)
    (w : World) : option string * World :=
  let w := log (EvTemplateWrite templateName (parameters w)) w in
  match templatewrapper_Write tmplw templateName (parameters w) with
  | Err err => (Some err, w)
  | Ok buf =>
      (WriteFile (history w) targetDir targetPath buf, log (EvWriteFile targetPath buf) w)
  end.

Definition path_error (relativeTargetPath ext err : string) : string :=
  "error evaluating target path from '" +:+ relativeTargetPath +:+ "'" +:+ ext +:+ ": " +:+ err.

Definition condition_error (condition ext err : string) : string :=
  "error evaluating condition from '" +:+ condition +:+ "'" +:+ ext +:+ ": " +:+ err.

Definition body_error (targetPath ext err : string) : string :=
  "error evaluating template for target '" +:+ targetPath +:+ "'" +:+ ext +:+ ": " +:+ err.

Definition renderSingleTemplateIteration (tplSpec : TemplateSpec)
    (templateName templateNameExtension errorMessageItemExtension : string)
    (renderedFiles : list FileResult) (allSuccessful : bool)
    (tmpl : TemplateWrapper) (targetDir : string) (w : World)
    : list FileResult * bool * World :=
  let pathName := templateName +:+ "_path" +:+ templateNameExtension in
  let w := log (EvRenderString pathName (RelativeTargetPath tplSpec) (parameters w)) w in
  match renderString (parameters w) pathName (RelativeTargetPath tplSpec) with
  | (targetPath, Some err) =>
      (renderedFiles ++ [errorFileResult targetPath
         (path_error (RelativeTargetPath tplSpec) errorMessageItemExtension err)], false, w)
  | (targetPath, None) =>
      let condName := templateName +:+ "_condition" +:+ templateNameExtension in
      let w := if bool_decide (Condition tplSpec = "") then w
               else log (EvRenderString condName (Condition tplSpec) (parameters w)) w in
      match evaluateCondition (Condition tplSpec) (parameters w) condName with
      | (_, Some err) =>
          (renderedFiles ++ [errorFileResult targetPath
             (condition_error (Condition tplSpec) errorMessageItemExtension err)], false, w)
      | (true, None) =>
          match renderAndWriteFile tmpl templateName targetDir targetPath w with
          | (Some err, w) =>
              (renderedFiles ++ [errorFileResult targetPath
                 (body_error targetPath errorMessageItemExtension err)], false, w)
          | (None, w) => (renderedFiles ++ [successFileResult targetPath], allSuccessful, w)
          end
      | (false, None) => (renderedFiles, allSuccessful, w)
      end
  end.

(** [strings.ReplaceAll(s, "/", "_")] *)
Fixpoint replace_slashes (s : string) : string :=
  match s with
  | EmptyString => EmptyString
  | String c s' => String (if bool_decide (c = "/"%char) then "_"%char else c) (replace_slashes s')
  end.

(** The loop [for counter, item := range tplSpec.WithItems]; [counter] is
    the index of the head of [items]. *)
Fixpoint renderItems (tplSpec : TemplateSpec) (templateName : string)
    (tmplw : TemplateWrapper) (targetDir : string) (items : list Value) (counter : nat)
    (renderedFiles : list FileResult) (allSuccessful : bool) (w : World)
    : list FileResult * bool * World :=
  match items with
  | [] => (renderedFiles, allSuccessful, w)
  | item :: items' =>
      let w := set_parameter "item" item w in
      let '(renderedFiles, allSuccessful, w) :=
        renderSingleTemplateIteration tplSpec templateName
          ("_" +:+ Sprintf_d (counter + 1)) (" for item #" +:+ Sprintf_d (counter + 1))
          renderedFiles allSuccessful tmplw targetDir w in
      renderItems tplSpec templateName tmplw targetDir items' (S counter)
        renderedFiles allSuccessful w
  end.

Definition load_error (relativeSourcePath err : string) : string :=
  "failed to load template " +:+ relativeSourcePath +:+ ": " +:+ err.

Definition parse_error (relativeSourcePath err : string) : string :=
  "failed to parse template " +:+ relativeSourcePath +:+ ": " +:+ err.

Definition renderSingleTemplate (tplSpec : TemplateSpec) (sourceDir targetDir : string)
    (w : World) : list FileResult * bool * World :=
  let templateName := replace_slashes (RelativeSourcePath tplSpec) in
  let w0 := w in
  let w := log (EvReadFile (RelativeSourcePath tplSpec)) w in
  match ReadFile (history w0) sourceDir (RelativeSourcePath tplSpec) with
  | Err err =>
      ([errorFileResult (RelativeTargetPath tplSpec)
          (load_error (RelativeSourcePath tplSpec) err)], false, w)
  | Ok templateContents =>
      match templatewrapper_Parse (JustCopy tplSpec) templateContents templateName with
      | Err err =>
          ([errorFileResult (RelativeTargetPath tplSpec)
              (parse_error (RelativeSourcePath tplSpec) err)], false, w)
      | Ok tmplw =>
          match WithItems tplSpec with
          | [] =>
              renderSingleTemplateIteration tplSpec templateName "" "" [] true tmplw targetDir w
          | items => renderItems tplSpec templateName tmplw targetDir items 0 [] true w
          end
      end
  end.

(** The loop of [renderAllTemplates], from the accumulators' values. *)
Fixpoint renderTemplates (templates : list TemplateSpec) (sourceDir targetDir : string)
    (renderedFiles : list FileResult) (allSuccessful : bool) (w : World)
    : list FileResult * bool * World :=
  match templates with
  | [] => (renderedFiles, allSuccessful, w)
  | tplSpec :: templates' =>
      let '(rendered, success, w) := renderSingleTemplate tplSpec sourceDir targetDir w in
      renderTemplates templates' sourceDir targetDir
        (renderedFiles ++ rendered) (allSuccessful && success) w
  end.

Definition renderAllTemplates (genSpec : GeneratorSpec) (sourceDir targetDir : string)
    (w : World) : list FileResult * bool * World :=
  renderTemplates (Templates genSpec) sourceDir targetDir [] true w.

(** *** The entry points *)

Definition WriteRenderSpecWithDefaults (request : Request) (generatorName : string) : Response :=
  match ObtainGeneratorSpec (SourceBaseDir request) generatorName with
  | Err err => errorResponseToplevel err
  | Ok genSpec =>
      match constructRenderSpecWithValuesOrDefaults generatorName genSpec ∅ (VString "") with
      | Err err => errorResponseToplevel err
      | Ok renderSpec =>
          match WriteRenderSpec (TargetBaseDir request) renderSpec (RenderSpecFile request) with
          | Err err => errorResponseToplevel err
          | Ok targetFile => successResponse [successFileResult targetFile]
          end
      end
  end.

Definition not_allowed_error (k : string) : string :=
  "parameter '" +:+ k +:+ "' is not allowed according to generator spec".

(** [for k := range supplied { if _, ok := genSpec.Variables[k]; !ok { return ... } }]:
    the first enumerated key that is not a declared variable. *)
Definition extraneous_parameter (genSpec : GeneratorSpec) (supplied : gmap string Value)
    : option string :=
  fst <$> List.find (λ kv, bool_decide (Variables genSpec !! kv.1 = None))
            (range_parameters supplied).

Definition WriteRenderSpecWithValues (request : Request) (generatorName : string)
    (supplied : gmap string Value) : Response :=
  match ObtainGeneratorSpec (SourceBaseDir request) generatorName with
  | Err err => errorResponseToplevel err
  | Ok genSpec =>
      match constructRenderSpecWithValuesOrDefaults generatorName genSpec supplied VNil with
      | Err err => errorResponseToplevel err
      | Ok renderSpec =>
          match constructAndValidateParameterMap genSpec renderSpec with
          | Err err => errorResponseToplevel err
          | Ok _ =>
              match extraneous_parameter genSpec supplied with
              | Some k => errorResponseToplevel (not_allowed_error k)
              | None =>
                  match WriteRenderSpec (TargetBaseDir request) renderSpec
                          (RenderSpecFile request) with
                  | Err err => errorResponseToplevel err
                  | Ok targetFile => successResponse [successFileResult targetFile]
                  end
              end
          end
      end
  end.

(** [Render] returns the response; the model also returns the world the
    call ends in (the shared parameter map and the history of effects). *)
Definition Render (request : Request) : Response * World :=
  let w0 := {| parameters := ∅; history := [] |} in
  match ObtainRenderSpec (TargetBaseDir request) (RenderSpecFile request) with
  | Err err => (errorResponseToplevel err, w0)
  | Ok renderSpec =>
      match ObtainGeneratorSpec (SourceBaseDir request) (GeneratorName renderSpec) with
      | Err err => (errorResponseToplevel err, w0)
      | Ok genSpec =>
          match constructAndValidateParameterMap genSpec renderSpec with
          | Err err => (errorResponseToplevel err, w0)
          | Ok params =>
              let '(renderedFiles, allSuccessful, w) :=
                renderAllTemplates genSpec (SourceBaseDir request) (TargetBaseDir request)
                  {| parameters := params; history := [] |} in
              (if allSuccessful then successResponse renderedFiles
               else errorResponseRender renderedFiles, w)
          end
      end
  end.

(** *** Reading the history *)

(** The runs of the template engine on a string that a list of events
    holds, in order: template name, template text and data. *)
Definition rendered_strings (evs : list Event)
    : list (string * string * gmap string Value) :=
  omap (λ e, match e with
             | EvRenderString n c d => Some (n, c, d)
             | _ => None
             end) evs.

(** The name under which the target path of the item of index [i] (from 0)
    is rendered. *)
Definition item_path_name (templateName : string) (i : nat) : string :=
  templateName +:+ "_path" +:+ "_" +:+ Sprintf_d (i + 1).

(** What [Render] does before any template is looked at. *)
Definition render_preparation (request : Request) : result (GeneratorSpec * gmap string Value) :=
  let? renderSpec := ObtainRenderSpec (TargetBaseDir request) (RenderSpecFile request) in
  let? genSpec := ObtainGeneratorSpec (SourceBaseDir request) (GeneratorName renderSpec) in
  let? params := constructAndValidateParameterMap genSpec renderSpec in
  Ok (genSpec, params).

End Implementation.

(** ** A reference runtime

    Concrete instances of the runtime, used to run the code on examples:
    [regexp.MatchString] on a fragment of Go's regular-expression syntax,
    [text/template] on templates made of text and field references
    [{{.name}}], and [%v] on the closed value type. *)

Module GoRegexp.

(** Regular expressions over bytes, which are Go's runes on ASCII text.
    [RBegin] and [REnd] are the empty-width assertions [^] and [$]
    (beginning and end of the text; no flags).  The parser covers literals,
    [.], classes with ranges and negation, [*], [+], [?] and their lazy
    forms, alternation, groups, the anchors, escaped punctuation and the
    Perl classes; for the rest of Go's syntax (counted repetition, group
    flags, named classes, other escapes) it answers with an error that says
    so, where Go may accept the pattern.  The model is only used at a
    pattern and a text where the runtime's answer is taken to be the
    model's. *)
Inductive regex : Type :=
| RNone
| REmpty
| RChar (c : ascii)
| RAny
| RClass (neg : bool) (ranges : list (ascii * ascii))
| RBegin
| REnd
| RCat (r1 r2 : regex)
| RAlt (r1 r2 : regex)
| RStar (r : regex).

Definition in_range (c : ascii) (r : ascii * ascii) : bool :=
  (nat_of_ascii r.1 <=? nat_of_ascii c)%nat && (nat_of_ascii c <=? nat_of_ascii r.2)%nat.

Definition in_class (neg : bool) (ranges : list (ascii * ascii)) (c : ascii) : bool :=
  xorb neg (existsb (in_range c) ranges).

Definition newline : ascii := ascii_of_nat 10.

(** [nullable b e r]: [r] matches the empty string at a position that is
    the beginning of the text iff [b] and its end iff [e]. *)
Fixpoint nullable (b e : bool) (r : regex) : bool :=
  match r with
  | RNone | RChar _ | RAny | RClass _ _ => false
  | REmpty => true
  | RBegin => b
  | REnd => e
  | RCat r1 r2 => nullable b e r1 && nullable b e r2
  | RAlt r1 r2 => nullable b e r1 || nullable b e r2
  | RStar _ => true
  end.

(** The derivative of [r] by the byte [c] read at a position that is the
    beginning of the text iff [b] (it is not its end: [c] is there). *)
Fixpoint deriv (b : bool) (c : ascii) (r : regex) : regex :=
  match r with
  | RNone | REmpty | RBegin | REnd => RNone
  | RChar c' => if bool_decide (c = c') then REmpty else RNone
  | RAny => if bool_decide (c = newline) then RNone else REmpty
  | RClass neg ranges => if in_class neg ranges c then REmpty else RNone
  | RCat r1 r2 =>
      RAlt (RCat (deriv b c r1) r2) (if nullable b false r1 then deriv b c r2 else RNone)
  | RAlt r1 r2 => RAlt (deriv b c r1) (deriv b c r2)
  | RStar r1 => RCat (deriv b c r1) (RStar r1)
  end.

(** [r] matches all of the span [s], which starts at the beginning of the
    text iff [b] and stops at its end iff [e]. *)
Fixpoint span_match (b e : bool) (r : regex) (s : string) : bool :=
  match s with
  | EmptyString => nullable b e r
  | String c s' => span_match false e (deriv b c r) s'
  end.

(** [r] matches all of the text [s]. *)
Definition matches (r : regex) (s : string) : bool := span_match true true r s.

(** Some span [mid] of the text [s] is matched by [r]. *)
Definition contains_match (r : regex) (s : string) : Prop :=
  ∃ pre mid post, s = pre +:+ mid +:+ post ∧
    span_match (bool_decide (pre = "")) (bool_decide (post = "")) r mid = true.

(** [r] matches a prefix of [s]. *)
Fixpoint matches_prefix (b : bool) (r : regex) (s : string) : bool :=
  match s with
  | EmptyString => nullable b true r
  | String c s' => nullable b false r || matches_prefix false (deriv b c r) s'
  end.

(** [r] matches somewhere in [s]: Go's unanchored search. *)
Fixpoint search (b : bool) (r : regex) (s : string) : bool :=
  matches_prefix b r s ||
  match s with
  | EmptyString => false
  | String _ s' => search false r s'
  end.

(** *** Parsing *)

Inductive last_item := LNone | LAtom | LRep | LLazy.

(** A group being parsed: the alternatives already closed by [|] and the
    items of the current one, both latest first. *)
Record frame := {
  alts : list regex;
  items : list regex;
  last : last_item;
}.

Inductive class_state :=
| CStart            (* just after the opening bracket *)
| CFirst            (* after the negation sign: a closing bracket is literal *)
| CIdle
| CHave (c : ascii)
| CDash (c : ascii).

Inductive mode :=
| Normal
| Escape
| InClass (neg : bool) (ranges : list (ascii * ascii)) (st : class_state).

Record pstate := {
  top : frame;
  stack : list frame;
  pmode : mode;
}.

Definition empty_frame : frame := {| alts := []; items := []; last := LNone |}.

Definition cat_items (l : list regex) : regex := foldl (λ acc r, RCat r acc) REmpty l.

Definition close_frame (f : frame) : regex :=
  foldl (λ acc r, RAlt r acc) (cat_items (items f)) (alts f).

Definition push_atom (r : regex) (st : pstate) : pstate :=
  {| top := {| alts := alts (top st); items := r :: items (top st); last := LAtom |};
     stack := stack st; pmode := Normal |}.

Definition digit_class : list (ascii * ascii) := [("0", "9")]%char.
Definition word_class : list (ascii * ascii) :=
  [("0", "9"); ("A", "Z"); ("_", "_"); ("a", "z")]%char.
Definition space_class : list (ascii * ascii) :=
  [(ascii_of_nat 9, ascii_of_nat 10); (ascii_of_nat 12, ascii_of_nat 13); (" ", " ")]%char.

Definition is_punct (c : ascii) : bool :=
  let n := nat_of_ascii c in
  ((33 <=? n) && (n <=? 47) || (58 <=? n) && (n <=? 64) ||
   (91 <=? n) && (n <=? 96) || (123 <=? n) && (n <=? 126))%nat.

Definition repeat_op (c : ascii) (r : regex) : regex :=
  if bool_decide (c = "*"%char) then RStar r
  else if bool_decide (c = "+"%char) then RCat r (RStar r)
  else RAlt r REmpty.

Definition step_normal (c : ascii) (st : pstate) : result pstate :=
  let f := top st in
  if bool_decide (c = "\"%char) then
    Ok {| top := f; stack := stack st; pmode := Escape |}
  else if bool_decide (c = "("%char) then
    Ok {| top := empty_frame; stack := f :: stack st; pmode := Normal |}
  else if bool_decide (c = ")"%char) then
    match stack st with
    | [] => Err "unexpected )"
    | parent :: rest =>
        Ok (push_atom (close_frame f) {| top := parent; stack := rest; pmode := Normal |})
    end
  else if bool_decide (c = "|"%char) then
    Ok {| top := {| alts := cat_items (items f) :: alts f; items := []; last := LNone |};
          stack := stack st; pmode := Normal |}
  else if bool_decide (c = "*"%char) || bool_decide (c = "+"%char)
          || bool_decide (c = "?"%char) then
    match last f, items f with
    | LAtom, r :: rest =>
        Ok {| top := {| alts := alts f; items := repeat_op c r :: rest; last := LRep |};
              stack := stack st; pmode := Normal |}
    | LRep, _ =>
        if bool_decide (c = "?"%char) then
          Ok {| top := {| alts := alts f; items := items f; last := LLazy |};
                stack := stack st; pmode := Normal |}
        else Err "invalid nested repetition operator"
    | LLazy, _ => Err "invalid nested repetition operator"
    | _, _ =>
        match items f, alts f, stack st with
        | [], [], _ :: _ =>
            if bool_decide (c = "?"%char) then Err "group flags are outside the fragment"
            else Err "missing argument to repetition operator"
        | _, _, _ => Err "missing argument to repetition operator"
        end
    end
  else if bool_decide (c = "["%char) then
    Ok {| top := f; stack := stack st; pmode := InClass false [] CStart |}
  else if bool_decide (c = "{"%char) then Err "counted repetition is outside the fragment"
  else if bool_decide (c = "."%char) then Ok (push_atom RAny st)
  else if bool_decide (c = "^"%char) then Ok (push_atom RBegin st)
  else if bool_decide (c = "$"%char) then Ok (push_atom REnd st)
  else Ok (push_atom (RChar c) st).

Definition step_escape (c : ascii) (st : pstate) : result pstate :=
  if bool_decide (c = "d"%char) then Ok (push_atom (RClass false digit_class) st)
  else if bool_decide (c = "D"%char) then Ok (push_atom (RClass true digit_class) st)
  else if bool_decide (c = "w"%char) then Ok (push_atom (RClass false word_class) st)
  else if bool_decide (c = "W"%char) then Ok (push_atom (RClass true word_class) st)
  else if bool_decide (c = "s"%char) then Ok (push_atom (RClass false space_class) st)
  else if bool_decide (c = "S"%char) then Ok (push_atom (RClass true space_class) st)
  else if is_punct c then Ok (push_atom (RChar c) st)
  else Err "escape sequence outside the fragment".

Definition in_class_mode (neg : bool) (ranges : list (ascii * ascii)) (cs : class_state)
    (st : pstate) : pstate :=
  {| top := top st; stack := stack st; pmode := InClass neg ranges cs |}.

Definition step_class (neg : bool) (ranges : list (ascii * ascii)) (cs : class_state)
    (c : ascii) (st : pstate) : result pstate :=
  if bool_decide (c = "\"%char) then Err "escape in a character class is outside the fragment"
  else if bool_decide (c = "["%char) then
    Err "bracket in a character class is outside the fragment"
  else
    match cs with
    | CStart =>
        if bool_decide (c = "^"%char) then Ok (in_class_mode true ranges CFirst st)
        else Ok (in_class_mode neg ranges (CHave c) st)
    | CFirst => Ok (in_class_mode neg ranges (CHave c) st)
    | CIdle =>
        if bool_decide (c = "]"%char) then Ok (push_atom (RClass neg ranges) st)
        else Ok (in_class_mode neg ranges (CHave c) st)
    | CHave c0 =>
        if bool_decide (c = "]"%char) then Ok (push_atom (RClass neg ((c0, c0) :: ranges)) st)
        else if bool_decide (c = "-"%char) then Ok (in_class_mode neg ranges (CDash c0) st)
        else Ok (in_class_mode neg ((c0, c0) :: ranges) (CHave c) st)
    | CDash c0 =>
        if bool_decide (c = "]"%char) then
          Ok (push_atom (RClass neg (("-"%char, "-"%char) :: (c0, c0) :: ranges)) st)
        else if (nat_of_ascii c0 <=? nat_of_ascii c)%nat then
          Ok (in_class_mode neg ((c0, c) :: ranges) CIdle st)
        else Err "invalid character class range"
    end.

Definition step (c : ascii) (st : pstate) : result pstate :=
  match pmode st with
  | Normal => step_normal c st
  | Escape => step_escape c st
  | InClass neg ranges cs => step_class neg ranges cs c st
  end.

Fixpoint parse_from (st : pstate) (pattern : string) : result regex :=
  match pattern with
  | EmptyString =>
      match pmode st, stack st with
      | Normal, [] => Ok (close_frame (top st))
      | Normal, _ :: _ => Err "missing closing )"
      | Escape, _ => Err "trailing backslash at end of expression"
      | InClass _ _ _, _ => Err "missing closing ]"
      end
  | String c pattern' => let? st' := step c st in parse_from st' pattern'
  end.

Definition Compile (pattern : string) : result regex :=
  match parse_from {| top := empty_frame; stack := []; pmode := Normal |} pattern with
  | Ok r => Ok r
  | Err msg => Err ("error parsing regexp: " +:+ msg +:+ ": `" +:+ pattern +:+ "`")
  end.

(** [regexp.MatchString]: whether [s] contains any match of [pattern]. *)
Definition MatchString (pattern s : string) : result bool :=
  let? re := Compile pattern in Ok (search true re s).

(** Whether all of [s] is one match of [pattern]. *)
Definition FullMatch (pattern s : string) : result bool :=
  let? re := Compile pattern in Ok (matches re s).

End GoRegexp.

Module GoTemplate.

(** Templates made of literal text and of actions [{{.name}}] that print
    the entry [name] of the data map. *)
Inductive node : Type :=
| NText (text : string)
| NField (name : string).

Definition string_of_rev (l : list ascii) : string := string_of_list_ascii (rev l).

Definition is_ident_char (c : ascii) : bool :=
  let n := nat_of_ascii c in
  ((48 <=? n) && (n <=? 57) || (65 <=? n) && (n <=? 90) ||
   (97 <=? n) && (n <=? 122) || (n =? 95))%nat.

Fixpoint trim_left (s : string) : string :=
  match s with
  | String " " s' => trim_left s'
  | _ => s
  end.

Definition trim (s : string) : string :=
  string_of_list_ascii (rev (list_ascii_of_string
    (trim_left (string_of_list_ascii (rev (list_ascii_of_string (trim_left s))))))).

Definition parse_action (action : string) : result node :=
  match trim action with
  | String "." name =>
      if bool_decide (name ≠ "") && forallb is_ident_char (list_ascii_of_string name)
      then Ok (NField name)
      else Err ("action outside the fragment: " +:+ action)
  | _ => Err ("action outside the fragment: " +:+ action)
  end.

Definition add_text (acc : list ascii) (nodes : list node) : list node :=
  match acc with
  | [] => nodes
  | _ => NText (string_of_rev acc) :: nodes
  end.

(** [acc] holds the bytes of the current text or action, latest first;
    [nodes] the nodes already read, latest first. *)
Fixpoint scan (in_action : bool) (acc : list ascii) (nodes : list node) (s : string)
    : result (list node) :=
  match s with
  | EmptyString =>
      if in_action then Err "unclosed action" else Ok (rev (add_text acc nodes))
  | String c s' =>
      match s' with
      | String c' s'' =>
          if negb in_action && bool_decide (c = "{"%char) && bool_decide (c' = "{"%char) then
            scan true [] (add_text acc nodes) s''
          else if in_action && bool_decide (c = "}"%char) && bool_decide (c' = "}"%char) then
            match parse_action (string_of_rev acc) with
            | Ok n => scan false [] (n :: nodes) s''
            | Err e => Err e
            end
          else scan in_action (c :: acc) nodes s'
      | EmptyString => scan in_action (c :: acc) nodes s'
      end
  end.

Definition Parse (name contents : string) : result (list node) :=
  match scan false [] [] contents with
  | Ok nodes => Ok nodes
  | Err msg => Err ("template: " +:+ name +:+ ": " +:+ msg)
  end.

End GoTemplate.

Module GoFmt.

Fixpoint join (sep : string) (l : list string) : string :=
  match l with
  | [] => ""
  | [x] => x
  | x :: l' => x +:+ sep +:+ join sep l'
  end.

(** Insertion of a printed map entry by its key. *)
Fixpoint insert_entry (e : string * string) (l : list (string * string))
    : list (string * string) :=
  match l with
  | [] => [e]
  | e' :: l' => if String.leb e.1 e'.1 then e :: l else e' :: insert_entry e l'
  end.

Definition sort_entries (l : list (string * string)) : list (string * string) :=
  foldr insert_entry [] l.

(** [%v] on the closed value type; a map prints with its keys in order. *)
Fixpoint Sprintf_v (v : Value) : string :=
  match v with
  | VNil => "<nil>"
  | VString s => s
  | VInt z => pretty z
  | VBool b => if b then "true" else "false"
  | VList l => "[" +:+ join " " (List.map Sprintf_v l) +:+ "]"
  | VMap m =>
      "map[" +:+
      join " " (List.map (λ e, e.1 +:+ ":" +:+ e.2)
                  (sort_entries (List.map (λ kv, (kv.1, Sprintf_v kv.2)) m))) +:+ "]"
  end.

End GoFmt.

Module GoTemplateExec.

(** A missing key of the data map and a nil entry print as [<no value>]. *)
Definition exec_node (data : gmap string Value) (n : GoTemplate.node) : string :=
  match n with
  | GoTemplate.NText text => text
  | GoTemplate.NField name =>
      match data !! name with
      | Some VNil | None => "<no value>"
      | Some v => GoFmt.Sprintf_v v
      end
  end.

Definition Execute (tmpl : list GoTemplate.node) (name : string) (data : gmap string Value)
    : result string :=
  Ok (foldr (λ n out, exec_node data n +:+ out) "" tmpl).

End GoTemplateExec.

#[export] Instance reference_runtime : GoRuntime := {|
  Template := list GoTemplate.node;
  template_Parse := GoTemplate.Parse;
  template_Execute := GoTemplateExec.Execute;
  regexp_MatchString := GoRegexp.MatchString;
  Sprintf_v := GoFmt.Sprintf_v;
  Sprintf_d := λ n, pretty n;
  range_Variables_resolve := map_to_list;
  range_Variables_resolve_perm := λ m, Permutation_refl _;
  range_Variables_validate := map_to_list;
  range_Variables_validate_perm := λ m, Permutation_refl _;
  range_parameters := map_to_list;
  range_parameters_perm := λ m, Permutation_refl _;
|}.

(** In-memory directories: the generator specs and the template files of
    the source directory, the render specs stored in the target directory.
    Writing succeeds except to an empty file name. *)
Record Fixture := {
  fx_generators : gmap string GeneratorSpec;
  fx_files : gmap string string;
  fx_renderSpecs : gmap string RenderSpec;
}.

Definition fixture_lookup {A} (what : string) (m : gmap string A) (k : string) : result A :=
  match m !! k with
  | Some a => Ok a
  | None => Err (what +:+ " " +:+ k +:+ ": no such file or directory")
  end.

Definition fixture_collaborators (fx : Fixture) : Collaborators := {|
  ObtainGeneratorSpec := λ _ name, fixture_lookup "error reading generator spec" (fx_generators fx) name;
  ReadFile := λ _ _ path, fixture_lookup "open" (fx_files fx) path;
  ObtainRenderSpec := λ _ file, fixture_lookup "error reading render spec" (fx_renderSpecs fx) file;
  WriteRenderSpec := λ _ _ file,
    if bool_decide (file = "") then Err "open : no such file or directory" else Ok file;
  WriteFile := λ _ _ path _,
    if bool_decide (path = "") then Some "open : no such file or directory" else None;
|}.


(** ** Example generators *)

Module Examples.

Definition unit_items : TemplateSpec :=
  {| RelativeSourcePath := "src/a.tmpl"; RelativeTargetPath := "out_{{.item}}.txt";
     Condition := ""; WithItems := [VInt 1; VInt 2; VInt 3]; JustCopy := false |}.

Definition unit_plain : TemplateSpec :=
  {| RelativeSourcePath := "b.tmpl"; RelativeTargetPath := "b_{{.item}}.txt";
     Condition := ""; WithItems := []; JustCopy := false |}.

Definition unit_conditional : TemplateSpec :=
  {| RelativeSourcePath := "b.tmpl"; RelativeTargetPath := "b.txt";
     Condition := "{{.mode}}"; WithItems := []; JustCopy := false |}.

Definition unit_missing : TemplateSpec :=
  {| RelativeSourcePath := "missing.tmpl"; RelativeTargetPath := "x.txt";
     Condition := ""; WithItems := []; JustCopy := false |}.

Definition unit_badpath : TemplateSpec :=
  {| RelativeSourcePath := "b.tmpl"; RelativeTargetPath := "out_{{.name";
     Condition := ""; WithItems := []; JustCopy := false |}.

Definition var_name : VariableSpec :=
  {| Description := "the name of the service"; DefaultValue := VNil;
     ValidationPattern := "[a-z]+" |}.

Definition var_fqdn : VariableSpec :=
  {| Description := "the host name"; DefaultValue := VString "put in your fqdn here";
     ValidationPattern := "^[a-z.]+$" |}.

Definition var_owner : VariableSpec :=
  {| Description := "the owner"; DefaultValue := VNil; ValidationPattern := "^[a-z]+$" |}.

Definition gen_main : GeneratorSpec :=
  {| Templates := [unit_items; unit_plain]; Variables := {[ "name" := var_name ]} |}.

Definition gen_broken : GeneratorSpec :=
  {| Templates := [unit_missing]; Variables := ∅ |}.

Definition gen_badpath : GeneratorSpec :=
  {| Templates := [unit_badpath]; Variables := ∅ |}.

Definition gen_defaults : GeneratorSpec :=
  {| Templates := []; Variables := {[ "fqdn" := var_fqdn; "owner" := var_owner ]} |}.

Definition spec_main : RenderSpec :=
  {| GeneratorName := "main"; Parameters := {[ "name" := VString "abc123" ]} |}.

Definition dirs : Fixture :=
  {| fx_generators := {[ "main" := gen_main; "broken" := gen_broken;
                         "badpath" := gen_badpath; "defaults" := gen_defaults ]};
     fx_files := {[ "src/a.tmpl" := "Hello {{.name}} {{.item}}"; "b.tmpl" := "Bye {{.name}}" ]};
     fx_renderSpecs :=
       {[ "main.yaml" := spec_main;
          "broken.yaml" := {| GeneratorName := "broken"; Parameters := ∅ |};
          "badpath.yaml" := {| GeneratorName := "badpath"; Parameters := ∅ |} ]} |}.

Definition request (file : string) : Request :=
  {| SourceBaseDir := "generators"; TargetBaseDir := "target"; RenderSpecFile := file |}.

Definition world (params : gmap string Value) : World :=
  {| parameters := params; history := [] |}.

#[export] Instance collaborators : Collaborators := fixture_collaborators dirs.

Definition params_name : gmap string Value := {[ "name" := VString "abc123" ]}.

Definition params_skip : gmap string Value := {[ "mode" := VString "skip" ]}.

Definition supplied_name : gmap string Value := {[ "name" := VString "abc" ]}.

Definition supplied_bogus : gmap string Value :=
  {[ "name" := VString "abc"; "bogus" := VString "x" ]}.

Definition supplied_only_bogus : gmap string Value := {[ "bogus" := VString "x" ]}.

Definition spec_supplied : RenderSpec :=
  {| GeneratorName := "main"; Parameters := supplied_name |}.

Definition spec_defaults : RenderSpec :=
  {| GeneratorName := "defaults";
     Parameters := {[ "fqdn" := VString "put in your fqdn here"; "owner" := VString "" ]} |}.

Definition tmpl_a : TemplateWrapper :=
  TwTemplate [GoTemplate.NText "Hello "; GoTemplate.NField "name"; GoTemplate.NText " ";
              GoTemplate.NField "item"].

Definition tmpl_b : TemplateWrapper :=
  TwTemplate [GoTemplate.NText "Bye "; GoTemplate.NField "name"].

End Examples.

(** ** Reading the file results against the history *)

(** A file result carries no error when it is a success and exactly one
    when it is a failure. *)
Definition well_formed_result (fr : FileResult) : Prop :=
  (length (FileErrors fr) = if FileSuccess fr then 0 else 1)%nat.

(** The file results [new] account for the writes among the events [evs]:
    every call of [WriteFile] is on the path of a file result, and every
    file result that is a success has had [WriteFile] called on its path. *)
Definition writes_reported (new : list FileResult) (evs : list Event) : Prop :=
  (∀ p b, EvWriteFile p b ∈ evs → ∃ fr, fr ∈ new ∧ RelativeFilePath fr = p) ∧
  (∀ fr, fr ∈ new → FileSuccess fr = true → ∃ b, EvWriteFile (RelativeFilePath fr) b ∈ evs).

Definition audited (new : list FileResult) (evs : list Event) : Prop :=
  Forall well_formed_result new ∧ writes_reported new evs.

(** The source files read among the events [evs], in order. *)
Definition read_paths (evs : list Event) : list string :=
  omap (λ e, match e with
             | EvReadFile path => Some path
             | _ => None
             end) evs.

Module MoreExamples.

Definition var_region : VariableSpec :=
  {| Description := "the region"; DefaultValue := VString "eu"; ValidationPattern := "" |}.

Definition gen_region : GeneratorSpec :=
  {| Templates := []; Variables := {[ "region" := var_region ]} |}.

Definition spec_region_nil : RenderSpec :=
  {| GeneratorName := "region"; Parameters := {[ "region" := VNil ]} |}.

Definition spec_stray : RenderSpec :=
  {| GeneratorName := "main";
     Parameters := {[ "name" := VString "abc"; "stray" := VString "zzz" ]} |}.

Definition unit_badcond : TemplateSpec :=
  {| RelativeSourcePath := "b.tmpl"; RelativeTargetPath := "b.txt";
     Condition := "{{.mode"; WithItems := []; JustCopy := false |}.

Definition unit_missing_items : TemplateSpec :=
  {| RelativeSourcePath := "gone.tmpl"; RelativeTargetPath := "y_{{.item}}.txt";
     Condition := ""; WithItems := [VInt 1; VInt 2; VInt 3]; JustCopy := false |}.

Definition gen_two_missing : GeneratorSpec :=
  {| Templates := [Examples.unit_missing; unit_missing_items]; Variables := ∅ |}.

End MoreExamples.

(** * Properties *)

(** ** Early-exit loops that fill a map *)

Section FillLoop.
Context {V : Type} (g : string → V → result Value).

Lemma fill_loop_ok l : ∀ acc m,
  foldM_result (fill_entry g) acc l = Ok m →
  (∀ k, k ∉ l.*1 → m !! k = acc !! k) ∧
  (NoDup l.*1 → ∀ k v, (k, v) ∈ l → ∃ x, g k v = Ok x ∧ m !! k = Some x).
Proof.
  induction l as [|[k0 v0] l IH]; intros acc m Hfold; simpl in *.
  - inversion Hfold; subst. split; [done|]. intros _ k v Hin. by apply elem_of_nil in Hin.
  - unfold fill_entry at 1 in Hfold. simpl in Hfold.
    destruct (g k0 v0) as [x0|e] eqn:Hg; simpl in Hfold; [|done].
    destruct (IH _ _ Hfold) as [Hout Hin]. split.
    + intros k Hk. apply not_elem_of_cons in Hk as [Hne Hk].
      rewrite (Hout k Hk). by rewrite lookup_insert_ne.
    + intros Hnd k v Hkv. apply NoDup_cons in Hnd as [Hk0 Hnd].
      apply elem_of_cons in Hkv as [Heq|Hkv].
      * inversion Heq; subst. exists x0. split; [done|].
        rewrite (Hout k0 Hk0). apply lookup_insert_eq.
      * by apply Hin.
Qed.

Lemma fill_loop_err l : ∀ acc e,
  foldM_result (fill_entry g) acc l = Err e → ∃ k v, (k, v) ∈ l ∧ g k v = Err e.
Proof.
  induction l as [|[k0 v0] l IH]; intros acc e Hfold; simpl in *; [done|].
  unfold fill_entry at 1 in Hfold. simpl in Hfold.
  destruct (g k0 v0) as [x0|e0] eqn:Hg; simpl in Hfold.
  - destruct (IH _ _ Hfold) as (k & v & Hin & Hk). exists k, v. split; [by right|done].
  - inversion Hfold; subst. exists k0, v0. split; [by left|done].
Qed.

(** Over an enumeration of a map: the loop succeeds exactly when every
    entry does, and then the result holds the computed entries and nothing
    else; when it fails, it fails with the error of one of the entries. *)
Lemma fill_map_spec (vars : gmap string V) (l : list (string * V)) :
  l ≡ₚ map_to_list vars →
  match foldM_result (fill_entry g) ∅ l with
  | Ok m =>
      (∀ k v, vars !! k = Some v → ∃ x, g k v = Ok x ∧ m !! k = Some x) ∧
      (∀ k, vars !! k = None → m !! k = None)
  | Err e => ∃ k v, vars !! k = Some v ∧ g k v = Err e
  end.
Proof.
  intros Hperm.
  assert (Hin : ∀ k v, (k, v) ∈ l ↔ vars !! k = Some v).
  { intros k v. rewrite Hperm. apply elem_of_map_to_list. }
  assert (Hnd : NoDup l.*1).
  { rewrite Hperm. apply NoDup_fst_map_to_list. }
  destruct (foldM_result (fill_entry g) ∅ l) as [m|e] eqn:Hfold.
  - destruct (fill_loop_ok _ _ _ Hfold) as [Hout Hval]. split.
    + intros k v Hk. apply (Hval Hnd). by apply Hin.
    + intros k Hk. rewrite Hout; [done|].
      intros Hel. apply list_elem_of_fmap in Hel as ([k' v] & -> & Hel).
      apply Hin in Hel. simpl in Hk. congruence.
  - destruct (fill_loop_err _ _ _ Hfold) as (k & v & Hel & Hg).
    exists k, v. split; [by apply Hin|done].
Qed.

End FillLoop.

Section Resolver.
Context `{RT : GoRuntime} `{CO : Collaborators}.

Lemma resolve_variable_fill supplied nilDefault acc kv :
  resolve_variable supplied nilDefault acc kv
  = fill_entry (fallback_value supplied nilDefault) acc kv.
Proof.
  destruct kv as [k v]. unfold resolve_variable, fill_entry, fallback_value, go_index. simpl.
  rewrite lookup_insert_eq. simpl.
  destruct (is_nil (default VNil (supplied !! k))) eqn:Hnil.
  - destruct (DefaultValue v); simpl; rewrite ?insert_insert_eq; try done.
    destruct (renderStringDefaultFromTemplate k s); simpl; by rewrite ?insert_insert_eq.
  - done.
Qed.

Lemma foldM_result_ext {A B} (f f' : A → B → result A) l :
  (∀ a b, f a b = f' a b) → ∀ a, foldM_result f a l = foldM_result f' a l.
Proof.
  intros Hext. induction l as [|b l IH]; intros a; simpl; [done|].
  rewrite Hext. destruct (f' a b); simpl; [apply IH|done].
Qed.

Lemma validate_variable_fill renderSpec acc kv :
  validate_variable renderSpec acc kv = fill_entry (validated_value renderSpec) acc kv.
Proof.
  destruct kv as [k v]. unfold validate_variable, fill_entry, validated_value. simpl.
  destruct (resolved_value renderSpec k v); simpl; [|done].
  by destruct (check_value k v a).
Qed.

Lemma resolve_spec generatorName genSpec supplied nilDefault :
  match constructRenderSpecWithValuesOrDefaults generatorName genSpec supplied nilDefault with
  | Ok rs =>
      GeneratorName rs = generatorName ∧
      (∀ k v, Variables genSpec !! k = Some v →
         ∃ x, fallback_value supplied nilDefault k v = Ok x ∧ Parameters rs !! k = Some x) ∧
      (∀ k, Variables genSpec !! k = None → Parameters rs !! k = None)
  | Err e =>
      ∃ k v, Variables genSpec !! k = Some v ∧ fallback_value supplied nilDefault k v = Err e
  end.
Proof.
  unfold constructRenderSpecWithValuesOrDefaults.
  rewrite (foldM_result_ext _ _ _ (resolve_variable_fill supplied nilDefault)).
  pose proof (fill_map_spec (fallback_value supplied nilDefault) (Variables genSpec) _
                (range_Variables_resolve_perm _)) as Hspec.
  destruct (foldM_result _ _ _) as [m|e]; simpl; [|done].
  by destruct Hspec.
Qed.

Lemma validate_spec genSpec renderSpec :
  match constructAndValidateParameterMap genSpec renderSpec with
  | Ok params =>
      (∀ k v, Variables genSpec !! k = Some v →
         ∃ x, validated_value renderSpec k v = Ok x ∧ params !! k = Some x) ∧
      (∀ k, Variables genSpec !! k = None → params !! k = None)
  | Err e => ∃ k v, Variables genSpec !! k = Some v ∧ validated_value renderSpec k v = Err e
  end.
Proof.
  unfold constructAndValidateParameterMap.
  rewrite (foldM_result_ext _ _ _ (validate_variable_fill renderSpec)).
  apply fill_map_spec, range_Variables_validate_perm.
Qed.

End Resolver.

(** ** The unanchored search of [regexp.MatchString] *)

Section Search.
Import GoRegexp.
#[local] Arguments String.append !_ _ / : simpl nomatch.

Lemma matches_prefix_spec s : ∀ b r,
  matches_prefix b r s = true ↔
  ∃ mid post, s = mid +:+ post ∧ span_match b (bool_decide (post = "")) r mid = true.
Proof.
  induction s as [|c s IH]; intros b r; simpl.
  - split.
    + intros Hn. by exists "", "".
    + intros (mid & post & Heq & Hm). destruct mid; simpl in Heq; [|done].
      subst post. done.
  - rewrite orb_true_iff, IH. split.
    + intros [Hn|(mid & post & -> & Hm)].
      * by exists "", (String c s).
      * by exists (String c mid), post.
    + intros (mid & post & Heq & Hm). destruct mid as [|c' mid]; simpl in *.
      * subst post. by left.
      * inversion Heq; subst. right. by exists mid, post.
Qed.

Lemma search_spec s : ∀ b r,
  search b r s = true ↔
  ∃ pre mid post, s = pre +:+ mid +:+ post ∧
    span_match (b && bool_decide (pre = "")) (bool_decide (post = "")) r mid = true.
Proof.
  induction s as [|c s IH]; intros b r; cbn [search].
  - rewrite orb_false_r, matches_prefix_spec. split.
    + intros (mid & post & Heq & Hm). exists "", mid, post. by rewrite andb_true_r.
    + intros (pre & mid & post & Heq & Hm). destruct pre; simpl in Heq; [|done].
      rewrite andb_true_r in Hm. by exists mid, post.
  - rewrite orb_true_iff, matches_prefix_spec, IH. split.
    + intros [(mid & post & Heq & Hm)|(pre & mid & post & -> & Hm)].
      * exists "", mid, post. by rewrite andb_true_r.
      * exists (String c pre), mid, post. split; [done|]. by rewrite andb_false_r.
    + intros (pre & mid & post & Heq & Hm). destruct pre as [|c' pre]; simpl in Heq.
      * left. rewrite andb_true_r in Hm. by exists mid, post.
      * inversion Heq; subst. right. exists pre, mid, post. split; [done|].
        by rewrite andb_false_r in Hm.
Qed.

(** [regexp.MatchString] accepts [s] exactly when the pattern compiles and
    matches some span of [s]. *)
Lemma MatchString_true pattern s :
  MatchString pattern s = Ok true ↔ ∃ re, Compile pattern = Ok re ∧ contains_match re s.
Proof.
  unfold MatchString, contains_match. destruct (Compile pattern) as [re|e]; simpl.
  - split.
    + intros Hs. assert (Hs' : search true re s = true) by congruence.
      exists re. split; [done|].
      apply search_spec in Hs' as (pre & mid & post & Heq & Hm). by exists pre, mid, post.
    + intros (re' & Heq & pre & mid & post & Hs & Hm). inversion Heq; subst. f_equal.
      apply search_spec. by exists pre, mid, post.
  - split; [done|]. by intros (re' & Heq & _).
Qed.

End Search.

Section ResolverClaims.
Context `{RT : GoRuntime} `{CO : Collaborators}.

Lemma renderStringDefault_ok k defaultStr x :
  renderStringDefaultFromTemplate k defaultStr = Ok x →
  ∃ tmpl out, template_Parse ("__defaultvalue_" +:+ k) defaultStr = Ok tmpl ∧
              template_Execute tmpl ("__defaultvalue_" +:+ k) ∅ = Ok out ∧ x = VString out.
Proof.
  unfold renderStringDefaultFromTemplate.
  destruct (template_Parse _ _) as [tmpl|e]; [|done].
  destruct (template_Execute _ _ _) as [out|e] eqn:Hex; [|done].
  intros Heq. inversion Heq; subst. by exists tmpl, out.
Qed.

Lemma renderStringDefault_err k defaultStr e :
  renderStringDefaultFromTemplate k defaultStr = Err e →
  ∃ err, e = invalid_default_error k err ∧
    (template_Parse ("__defaultvalue_" +:+ k) defaultStr = Err err ∨
     ∃ tmpl, template_Parse ("__defaultvalue_" +:+ k) defaultStr = Ok tmpl ∧
             template_Execute tmpl ("__defaultvalue_" +:+ k) ∅ = Err err).
Proof.
  unfold renderStringDefaultFromTemplate.
  destruct (template_Parse _ _) as [tmpl|err] eqn:Hp.
  - destruct (template_Execute _ _ _) as [out|err] eqn:Hex; [done|].
    intros Heq. inversion Heq; subst. exists err. split; [done|]. right. by exists tmpl.
  - intros Heq. inversion Heq; subst. exists err. split; [done|]. by left.
Qed.

Lemma default_fails_render k v err :
  default_fails k v err →
  ∃ defaultStr, DefaultValue v = VString defaultStr ∧
    renderStringDefaultFromTemplate k defaultStr = Err (invalid_default_error k err).
Proof.
  intros (defaultStr & Hd & Hfail). exists defaultStr. split; [done|].
  unfold renderStringDefaultFromTemplate.
  destruct Hfail as [Hp|(tmpl & Hp & Hex)]; rewrite Hp; [done|]. by rewrite Hex.
Qed.

Lemma is_nil_true v : is_nil v = true ↔ v = VNil.
Proof. by destruct v. Qed.

Lemma is_nil_false v : is_nil v = false ↔ v ≠ VNil.
Proof. by destruct v. Qed.

Lemma fallback_value_ok supplied nilDefault k v x :
  fallback_value supplied nilDefault k v = Ok x →
  (go_index supplied k ≠ VNil → x = go_index supplied k) ∧
  (go_index supplied k = VNil → is_default_of nilDefault k v x).
Proof.
  unfold fallback_value. intros Hx.
  destruct (is_nil (go_index supplied k)) eqn:Hnil.
  - apply is_nil_true in Hnil. split; [done|]. intros _.
    unfold is_default_of. destruct (DefaultValue v); try by inversion Hx.
    by apply renderStringDefault_ok.
  - apply is_nil_false in Hnil. split; [by inversion Hx|done].
Qed.

Lemma fallback_value_err supplied nilDefault k v e :
  fallback_value supplied nilDefault k v = Err e →
  go_index supplied k = VNil ∧
  ∃ err, default_fails k v err ∧ e = invalid_default_error k err.
Proof.
  unfold fallback_value. intros Hx.
  destruct (is_nil (go_index supplied k)) eqn:Hnil; [|done].
  apply is_nil_true in Hnil. split; [done|].
  destruct (DefaultValue v) as [|defaultStr| | | |] eqn:Hd; try done.
  destruct (renderStringDefault_err _ _ _ Hx) as (err & -> & Hfail).
  exists err. split; [|done]. by exists defaultStr.
Qed.



Lemma check_value_pattern k v val :
  is_nil val = false → ValidationPattern v ≠ "" →
  check_value k v val =
    match regexp_MatchString (ValidationPattern v) (Sprintf_v val) with
    | Err err => Err (invalid_pattern_error k err)
    | Ok false => Err (pattern_violation_error k (ValidationPattern v))
    | Ok true => Ok val
    end.
Proof.
  intros Hnil Hpat. unfold check_value. rewrite Hnil. by rewrite bool_decide_true.
Qed.

(** A variable whose checks fail makes the call fail, with its own error
    when it is the only failing one. *)
Lemma validate_fails_for genSpec renderSpec k v e0 :
  Variables genSpec !! k = Some v →
  validated_value renderSpec k v = Err e0 →
  (∃ e, constructAndValidateParameterMap genSpec renderSpec = Err e) ∧
  ((∀ k' v', k' ≠ k → Variables genSpec !! k' = Some v' →
      ∃ x, validated_value renderSpec k' v' = Ok x) →
   constructAndValidateParameterMap genSpec renderSpec = Err e0).
Proof.
  intros Hk Hv. pose proof (validate_spec genSpec renderSpec) as Hspec.
  destruct (constructAndValidateParameterMap genSpec renderSpec) as [params|e].
  - destruct Hspec as [Hin _]. destruct (Hin k v Hk) as (x & Hx & _). congruence.
  - split; [by eauto|]. intros Hothers.
    destruct Hspec as (k' & v' & Hk' & Hv'). destruct (decide (k' = k)) as [->|Hne].
    + congruence.
    + destruct (Hothers k' v' Hne Hk') as (x & Hx). congruence.
Qed.

(** C1 (as the code has it): for a variable with a non-empty validation
    pattern whose resolved value [val] is not nil, the value is stringified
    with [%v] and handed with the pattern to [regexp.MatchString], whose
    verdict decides: the call succeeds only if the verdict is a match, and
    does succeed then when no other variable fails; on the verdict "no
    match" the call fails, with the pattern-violation error naming the
    variable and the pattern if no other variable fails; on an error of
    [regexp.MatchString] (a malformed pattern) the call fails, with the
    spec-authoring error naming the variable if no other variable fails.
    [regexp.MatchString] is an unanchored search: at a pattern and a
    string where the runtime's verdict is that of Go's search as
    [GoRegexp] has it, the verdict is a match exactly when the pattern
    compiles and matches some span of the string, which need not be the
    whole string. *)
Theorem validation_pattern_is_searched genSpec renderSpec k v val :
  Variables genSpec !! k = Some v →
  ValidationPattern v ≠ "" →
  resolved_value renderSpec k v = Ok val →
  is_nil val = false →
  let pattern := ValidationPattern v in
  let verdict := regexp_MatchString pattern (Sprintf_v val) in
  let outcome := constructAndValidateParameterMap genSpec renderSpec in
  let others_pass :=
    ∀ k' v', k' ≠ k → Variables genSpec !! k' = Some v' →
             ∃ x, validated_value renderSpec k' v' = Ok x in
  (∀ params, outcome = Ok params → params !! k = Some val ∧ verdict = Ok true) ∧
  (verdict = Ok true → others_pass → ∃ params, outcome = Ok params) ∧
  (verdict = Ok false →
     (∃ e, outcome = Err e) ∧
     (others_pass → outcome = Err (pattern_violation_error k pattern))) ∧
  (∀ err, verdict = Err err →
     (∃ e, outcome = Err e) ∧
     (others_pass → outcome = Err (invalid_pattern_error k err))) ∧
  (verdict = GoRegexp.MatchString pattern (Sprintf_v val) →
     (verdict = Ok true ↔
      ∃ re, GoRegexp.Compile pattern = Ok re ∧
            GoRegexp.contains_match re (Sprintf_v val))).
Proof.
  intros Hk Hpat Hres Hnil pattern verdict outcome others_pass.
  assert (Hval : validated_value renderSpec k v =
                 match verdict with
                 | Err err => Err (invalid_pattern_error k err)
                 | Ok false => Err (pattern_violation_error k pattern)
                 | Ok true => Ok val
                 end).
  { unfold validated_value. rewrite Hres. simpl. by rewrite check_value_pattern. }
  split; [|split; [|split; [|split]]].
  - intros params Hok. pose proof (validate_spec genSpec renderSpec) as Hspec.
    subst outcome. rewrite Hok in Hspec. destruct Hspec as [Hin _].
    destruct (Hin k v Hk) as (x & Hx & Hlook). rewrite Hval in Hx.
    destruct verdict as [[|]|]; try done. by inversion Hx; subst x.
  - intros HM Hothers. rewrite HM in Hval.
    pose proof (validate_spec genSpec renderSpec) as Hspec.
    subst outcome. destruct (constructAndValidateParameterMap genSpec renderSpec)
      as [params|e]; [by eexists|].
    exfalso. destruct Hspec as (k' & v' & Hk' & Hv').
    destruct (decide (k' = k)) as [->|Hne]; [congruence|].
    destruct (Hothers k' v' Hne Hk') as (x & Hx). congruence.
  - intros HM. apply (validate_fails_for genSpec renderSpec k v); [done|].
    by rewrite Hval, HM.
  - intros err HM. apply (validate_fails_for genSpec renderSpec k v); [done|].
    by rewrite Hval, HM.
  - intros ->. apply MatchString_true.
Qed.

End ResolverClaims.

Section TemplateLoop.
Context `{RT : GoRuntime} `{CO : Collaborators}.

Lemma skip_words_spec rendered :
  bool_decide (rendered ≠ "false") && bool_decide (rendered ≠ "0")
  && bool_decide (rendered ≠ "no") && bool_decide (rendered ≠ "skip")
  = bool_decide (rendered ∉ skip_words).
Proof.
  rewrite <- !bool_decide_and. apply bool_decide_ext. unfold skip_words.
  rewrite !not_elem_of_cons. pose proof (not_elem_of_nil rendered). tauto.
Qed.

Lemma evaluateCondition_empty data name : evaluateCondition "" data name = (true, None).
Proof. done. Qed.

Lemma evaluateCondition_rendered condition data name rendered :
  condition ≠ "" →
  renderString data name condition = (rendered, None) →
  evaluateCondition condition data name = (bool_decide (rendered ∉ skip_words), None).
Proof.
  intros Hne Hr. unfold evaluateCondition. rewrite bool_decide_false by done.
  rewrite Hr. by rewrite skip_words_spec.
Qed.

Lemma renderString_error data name contents err :
  (renderString data name contents).2 = Some err →
  renderString data name contents = ("", Some err).
Proof.
  unfold renderString. destruct (template_Parse name contents) as [tmpl|e]; simpl.
  - destruct (template_Execute tmpl name data); simpl; [done|]. by intros [= ->].
  - by intros [= ->].
Qed.

(** Closes one case of [iteration_shape] once the three lists are given. *)
Ltac shape_close :=
  unfold log;
  cbn [forallb FileSuccess errorFileResult successFileResult RelativeFilePath fst
       parameters history];
  rewrite ?andb_false_r, ?andb_true_r, ?app_nil_r, <- ?app_assoc;
  cbn [app];
  split; [reflexivity|];
  split; [eauto|];
  split; [first [done | eauto]|];
  split; eauto 8.

(** What one iteration does, in every case: at most one file result is
    appended, the flag is lowered iff that result is a failure, the
    parameter map is left as it is, and the history grows by the rendering
    of the target path, then at most one rendering of the condition, then
    at most one run of the body and at most one write. *)
Lemma iteration_shape tplSpec templateName ext errExt renderedFiles allSuccessful tmpl
    targetDir w :
  let data := parameters w in
  let pathName := templateName +:+ "_path" +:+ ext in
  let condName := templateName +:+ "_condition" +:+ ext in
  ∃ new cond_evs body_evs,
    renderSingleTemplateIteration tplSpec templateName ext errExt renderedFiles
      allSuccessful tmpl targetDir w
    = (renderedFiles ++ new, allSuccessful && forallb FileSuccess new,
       {| parameters := data;
          history := history w ++
            EvRenderString pathName (RelativeTargetPath tplSpec) data :: cond_evs ++ body_evs |}) ∧
    (new = [] ∨ ∃ fr, new = [fr] ∧
       RelativeFilePath fr = (renderString data pathName (RelativeTargetPath tplSpec)).1) ∧
    (Condition tplSpec = "" → cond_evs = [] ∧ ∃ fr, new = [fr]) ∧
    (cond_evs = [] ∨ cond_evs = [EvRenderString condName (Condition tplSpec) data]) ∧
    (body_evs = [] ∨
     ∃ wr, body_evs = EvTemplateWrite templateName data :: wr ∧
           (wr = [] ∨ ∃ p b, wr = [EvWriteFile p b])).
Proof.
  intros data pathName condName. unfold renderSingleTemplateIteration.
  cbn [parameters log history]. fold data pathName condName.
  destruct (renderString data pathName (RelativeTargetPath tplSpec)) as [targetPath [err|]] eqn:Hp.
  - exists [errorFileResult targetPath (path_error (RelativeTargetPath tplSpec) errExt err)], [], [].
    shape_close.
  - destruct (bool_decide (Condition tplSpec = "")) eqn:Hcond.
    + apply bool_decide_eq_true in Hcond. rewrite Hcond, evaluateCondition_empty.
      unfold renderAndWriteFile. cbn [parameters log history]. fold data.
      destruct (templatewrapper_Write tmpl templateName data) as [buf|err].
      * destruct (WriteFile _ targetDir targetPath buf) as [err|].
        -- exists [errorFileResult targetPath (body_error targetPath errExt err)], [],
             [EvTemplateWrite templateName data; EvWriteFile targetPath buf].
           shape_close.
        -- exists [successFileResult targetPath], [],
             [EvTemplateWrite templateName data; EvWriteFile targetPath buf].
           shape_close.
      * exists [errorFileResult targetPath (body_error targetPath errExt err)], [],
          [EvTemplateWrite templateName data].
        shape_close.
    + apply bool_decide_eq_false in Hcond. cbn [parameters log history]. fold data.
      destruct (evaluateCondition (Condition tplSpec) data condName) as [c [err|]] eqn:Hev.
      * exists [errorFileResult targetPath (condition_error (Condition tplSpec) errExt err)],
          [EvRenderString condName (Condition tplSpec) data], [].
        destruct c; shape_close.
      * destruct c.
        -- unfold renderAndWriteFile. cbn [parameters log history]. fold data.
           destruct (templatewrapper_Write tmpl templateName data) as [buf|err].
           ++ destruct (WriteFile _ targetDir targetPath buf) as [err|].
              ** exists [errorFileResult targetPath (body_error targetPath errExt err)],
                   [EvRenderString condName (Condition tplSpec) data],
                   [EvTemplateWrite templateName data; EvWriteFile targetPath buf].
                 shape_close.
              ** exists [successFileResult targetPath],
                   [EvRenderString condName (Condition tplSpec) data],
                   [EvTemplateWrite templateName data; EvWriteFile targetPath buf].
                 shape_close.
           ++ exists [errorFileResult targetPath (body_error targetPath errExt err)],
                [EvRenderString condName (Condition tplSpec) data],
                [EvTemplateWrite templateName data].
              shape_close.
        -- exists [], [EvRenderString condName (Condition tplSpec) data], [].
           shape_close.
Qed.

(** C2: in an iteration whose target path renders, an empty condition is
    true without any rendering; a non-empty condition is rendered against
    the current parameters and is false exactly when the rendered text is
    one of the strings [false], [0], [no], [skip] (compared as they are).
    When it is false the iteration appends no file result, leaves the flag
    as it is and does not run the body; otherwise the body is run and
    exactly one file result, carrying the rendered path, is appended. *)
Theorem condition_decides_rendering tplSpec templateName ext errExt renderedFiles
    allSuccessful tmpl targetDir w targetPath :
  let data := parameters w in
  let pathName := templateName +:+ "_path" +:+ ext in
  let condName := templateName +:+ "_condition" +:+ ext in
  let w1 := log (EvRenderString pathName (RelativeTargetPath tplSpec) data) w in
  let w2 := log (EvRenderString condName (Condition tplSpec) data) w1 in
  let outcome :=
    renderSingleTemplateIteration tplSpec templateName ext errExt renderedFiles
      allSuccessful tmpl targetDir w in
  let rendered_from (w' : World) :=
    ∃ fr, outcome = (renderedFiles ++ [fr], allSuccessful && FileSuccess fr,
                     (renderAndWriteFile tmpl templateName targetDir targetPath w').2) ∧
          RelativeFilePath fr = targetPath ∧
          FileSuccess fr
          = bool_decide ((renderAndWriteFile tmpl templateName targetDir targetPath w').1 = None) ∧
          EvTemplateWrite templateName data
          ∈ history (renderAndWriteFile tmpl templateName targetDir targetPath w').2 in
  renderString data pathName (RelativeTargetPath tplSpec) = (targetPath, None) →
  (Condition tplSpec = "" →
     evaluateCondition (Condition tplSpec) data condName = (true, None) ∧ rendered_from w1) ∧
  (∀ rendered,
     Condition tplSpec ≠ "" →
     renderString data condName (Condition tplSpec) = (rendered, None) →
     evaluateCondition (Condition tplSpec) data condName
     = (bool_decide (rendered ∉ skip_words), None) ∧
     (rendered ∈ skip_words → outcome = (renderedFiles, allSuccessful, w2)) ∧
     (rendered ∉ skip_words → rendered_from w2)).
Proof.
  intros data pathName condName w1 w2 outcome rendered_from Hp.
  assert (Hbody : ∀ w', parameters w' = data →
    ∃ fr,
      match renderAndWriteFile tmpl templateName targetDir targetPath w' with
      | (Some err, w'') =>
          (renderedFiles ++ [errorFileResult targetPath (body_error targetPath errExt err)],
           false, w'')
      | (None, w'') => (renderedFiles ++ [successFileResult targetPath], allSuccessful, w'')
      end
      = (renderedFiles ++ [fr], allSuccessful && FileSuccess fr,
         (renderAndWriteFile tmpl templateName targetDir targetPath w').2) ∧
      RelativeFilePath fr = targetPath ∧
      FileSuccess fr
      = bool_decide ((renderAndWriteFile tmpl templateName targetDir targetPath w').1 = None) ∧
      EvTemplateWrite templateName data
      ∈ history (renderAndWriteFile tmpl templateName targetDir targetPath w').2).
  { intros w' Hw'. unfold renderAndWriteFile. cbn [parameters log history]. rewrite Hw'.
    destruct (templatewrapper_Write tmpl templateName data) as [buf|err].
    - destruct (WriteFile _ targetDir targetPath buf) as [err|].
      + exists (errorFileResult targetPath (body_error targetPath errExt err)).
        cbn [fst snd FileSuccess errorFileResult RelativeFilePath history log].
        rewrite andb_false_r. repeat split; try done. set_solver.
      + exists (successFileResult targetPath).
        cbn [fst snd FileSuccess successFileResult RelativeFilePath history log].
        rewrite andb_true_r. repeat split; try done. set_solver.
    - exists (errorFileResult targetPath (body_error targetPath errExt err)).
      cbn [fst snd FileSuccess errorFileResult RelativeFilePath history log].
      rewrite andb_false_r. repeat split; try done. set_solver. }
  split.
  - intros Hc. split; [by rewrite Hc|].
    subst rendered_from outcome. cbn beta. unfold renderSingleTemplateIteration.
    cbn [parameters log history]. fold data pathName condName. rewrite Hp.
    rewrite (bool_decide_true _ Hc).
    replace (evaluateCondition (Condition tplSpec) data condName)
      with (true, @None string) by (by rewrite Hc).
    apply Hbody. done.
  - intros rendered Hc Hr.
    pose proof (evaluateCondition_rendered _ _ _ _ Hc Hr) as Hev.
    split; [done|].
    subst rendered_from outcome. cbn beta. unfold renderSingleTemplateIteration.
    cbn [parameters log history]. fold data pathName condName. rewrite Hp.
    rewrite (bool_decide_false _ Hc). cbn [parameters log history]. fold data.
    rewrite Hev. split.
    + intros Hin. rewrite bool_decide_false by (by intros Hn). done.
    + intros Hnin. rewrite bool_decide_true by done. apply Hbody. done.
Qed.

(** C5 (what the code does): when rendering the target path fails, the
    iteration appends one failure whose recorded path is the empty string
    returned by [renderString] with the error, lowers the flag, and neither
    evaluates the condition nor runs the body. *)
Theorem path_failure_records_empty_path tplSpec templateName ext errExt renderedFiles
    allSuccessful tmpl targetDir w err :
  let pathName := templateName +:+ "_path" +:+ ext in
  (renderString (parameters w) pathName (RelativeTargetPath tplSpec)).2 = Some err →
  renderSingleTemplateIteration tplSpec templateName ext errExt renderedFiles
    allSuccessful tmpl targetDir w
  = (renderedFiles ++
       [{| FileSuccess := false; RelativeFilePath := "";
           FileErrors := [path_error (RelativeTargetPath tplSpec) errExt err] |}],
     false,
     log (EvRenderString pathName (RelativeTargetPath tplSpec) (parameters w)) w).
Proof.
  intros pathName Hp. apply renderString_error in Hp.
  unfold renderSingleTemplateIteration. cbn [parameters log history].
  fold pathName. by rewrite Hp.
Qed.

Lemma rendered_strings_app evs1 evs2 :
  rendered_strings (evs1 ++ evs2) = rendered_strings evs1 ++ rendered_strings evs2.
Proof. apply omap_app. Qed.

Lemma rendered_strings_cons n c d evs :
  rendered_strings (EvRenderString n c d :: evs) = (n, c, d) :: rendered_strings evs.
Proof. done. Qed.

(** The items loop, whatever the condition: file results are appended, the
    flag is lowered iff one of them is a failure, the history grows, and
    the parameter map ends with [item] set by every iteration in turn. *)
Lemma renderItems_acc tplSpec templateName tmplw targetDir items :
  ∀ counter renderedFiles allSuccessful w,
  ∃ new evs,
    renderItems tplSpec templateName tmplw targetDir items counter renderedFiles
      allSuccessful w
    = (renderedFiles ++ new, allSuccessful && forallb FileSuccess new,
       {| parameters := foldl (λ m x, <["item" := x]> m) (parameters w) items;
          history := history w ++ evs |}).
Proof.
  induction items as [|item items IH]; intros counter renderedFiles allSuccessful w.
  - exists [], []. simpl. rewrite andb_true_r, !app_nil_r. by destruct w.
  - cbn [renderItems].
    destruct (iteration_shape tplSpec templateName ("_" +:+ Sprintf_d (counter + 1))
                (" for item #" +:+ Sprintf_d (counter + 1)) renderedFiles allSuccessful
                tmplw targetDir (set_parameter "item" item w))
      as (new1 & ce & be & Heq & _).
    rewrite Heq.
    edestruct (IH (S counter)) as (new2 & evs2 & Heq2). rewrite Heq2.
    eexists (new1 ++ new2), _.
    cbn [parameters history set_parameter foldl].
    rewrite forallb_app, !andb_assoc, <- !app_assoc. reflexivity.
Qed.

(** The items loop of a unit without condition: one file result per item,
    in item order, each carrying the path rendered with that item under
    [item]; the target path is rendered once per item, with that data. *)
Lemma renderItems_unconditional tplSpec templateName tmplw targetDir items :
  Condition tplSpec = "" →
  ∀ counter renderedFiles allSuccessful w,
  ∃ new evs,
    renderItems tplSpec templateName tmplw targetDir items counter renderedFiles
      allSuccessful w
    = (renderedFiles ++ new, allSuccessful && forallb FileSuccess new,
       {| parameters := foldl (λ m x, <["item" := x]> m) (parameters w) items;
          history := history w ++ evs |}) ∧
    RelativeFilePath <$> new
    = imap (λ i item,
              (renderString (<["item" := item]> (parameters w))
                 (item_path_name templateName (counter + i))
                 (RelativeTargetPath tplSpec)).1) items ∧
    rendered_strings evs
    = imap (λ i item, (item_path_name templateName (counter + i),
                       RelativeTargetPath tplSpec,
                       <["item" := item]> (parameters w))) items.
Proof.
  intros Hcond. induction items as [|item items IH];
    intros counter renderedFiles allSuccessful w.
  - exists [], []. simpl. rewrite andb_true_r, !app_nil_r. by destruct w.
  - cbn [renderItems].
    destruct (iteration_shape tplSpec templateName ("_" +:+ Sprintf_d (counter + 1))
                (" for item #" +:+ Sprintf_d (counter + 1)) renderedFiles allSuccessful
                tmplw targetDir (set_parameter "item" item w))
      as (new1 & ce & be & Heq & Hnew & Hc & _ & Hbe).
    rewrite Heq. destruct (Hc Hcond) as [-> [fr ->]].
    destruct Hnew as [?|(fr' & [= <-] & Hpath)]; [done|].
    edestruct (IH (S counter)) as (new2 & evs2 & Heq2 & Hpaths & Hevs). rewrite Heq2.
    eexists (fr :: new2), _.
    cbn [parameters history set_parameter foldl] in *.
    split; [|split].
    + rewrite <- !app_assoc. cbn [app forallb]. rewrite andb_true_r, !andb_assoc. reflexivity.
    + rewrite fmap_cons, imap_cons, Hpaths, Hpath. unfold item_path_name at 2.
      rewrite Nat.add_0_r. f_equal. apply imap_ext. intros i x _. simpl.
      by rewrite insert_insert_eq, Nat.add_succ_r.
    + assert (Hb : rendered_strings be = []).
      { destruct Hbe as [->|(wr & -> & [->|(p0 & b0 & ->)])]; done. }
      rewrite rendered_strings_cons, rendered_strings_app, Hb, imap_cons, Hevs. cbn [app].
      unfold item_path_name at 2. rewrite Nat.add_0_r.
      f_equal. apply imap_ext. intros i x _. simpl.
      by rewrite insert_insert_eq, Nat.add_succ_r.
Qed.

Lemma foldl_insert_last (m : gmap string Value) items x :
  foldl (λ m x, <["item" := x]> m) m (items ++ [x]) = <["item" := x]> m.
Proof.
  revert m. induction items as [|y items IH]; intros m; simpl; [done|].
  rewrite IH. apply insert_insert_eq.
Qed.

(** C9: a unit whose source loads and parses, with items and without
    condition, yields exactly one file result per item, in item order: the
    result of index [i] carries the target path rendered with the item of
    index [i] under the key [item] (the empty path when that rendering
    fails), and the target path is rendered once per item, in order, with
    that item in the data. *)
Theorem items_unit_renders_once_per_item tplSpec sourceDir targetDir w templateContents tmplw :
  let templateName := replace_slashes (RelativeSourcePath tplSpec) in
  ReadFile (history w) sourceDir (RelativeSourcePath tplSpec) = Ok templateContents →
  templatewrapper_Parse (JustCopy tplSpec) templateContents templateName = Ok tmplw →
  WithItems tplSpec ≠ [] →
  Condition tplSpec = "" →
  ∃ files evs w',
    renderSingleTemplate tplSpec sourceDir targetDir w
    = (files, forallb FileSuccess files, w') ∧
    history w' = history w ++ EvReadFile (RelativeSourcePath tplSpec) :: evs ∧
    length files = length (WithItems tplSpec) ∧
    RelativeFilePath <$> files
    = imap (λ i item,
              (renderString (<["item" := item]> (parameters w))
                 (item_path_name templateName i) (RelativeTargetPath tplSpec)).1)
        (WithItems tplSpec) ∧
    rendered_strings evs
    = imap (λ i item, (item_path_name templateName i, RelativeTargetPath tplSpec,
                       <["item" := item]> (parameters w)))
        (WithItems tplSpec).
Proof.
  intros templateName Hread Hparse Hitems Hcond.
  unfold renderSingleTemplate. cbn [parameters log history]. fold templateName.
  rewrite Hread, Hparse.
  destruct (renderItems_unconditional tplSpec templateName tmplw targetDir
              (WithItems tplSpec) Hcond 0 [] true
              (log (EvReadFile (RelativeSourcePath tplSpec)) w))
    as (new & evs & Heq & Hpaths & Hevs).
  cbn [parameters log history] in *.
  destruct (WithItems tplSpec) as [|item items] eqn:Hw; [done|].
  rewrite Heq. eexists new, evs, _. cbn [app andb].
  split; [reflexivity|]. cbn [history]. split; [by rewrite <- app_assoc|].
  split; [|done].
  rewrite <- (length_fmap RelativeFilePath new), Hpaths. apply length_imap.
Qed.

(** C6 (as the code has it): a unit without items whose source loads and
    parses renders its target path exactly once; when the path renders, its
    condition is evaluated exactly once (rendered exactly once unless it is
    empty, which holds without rendering); when the condition holds, its
    body is run exactly once; nothing else is evaluated, and a failing
    target path or a condition that fails or does not hold ends the unit
    there.  Each of these is handed the shared parameter map as the unit
    receives it.  That map is the one the earlier units have written to:
    after a unit with items whose source loads and parses, it holds the
    last item under [item]. *)
Theorem unit_without_items_sees_shared_map tplSpec sourceDir targetDir w templateContents
    tmplw :
  let templateName := replace_slashes (RelativeSourcePath tplSpec) in
  let data := parameters w in
  let pathName := templateName +:+ "_path" +:+ "" in
  let condName := templateName +:+ "_condition" +:+ "" in
  let pathEv := EvRenderString pathName (RelativeTargetPath tplSpec) data in
  let condEv := EvRenderString condName (Condition tplSpec) data in
  let out := renderSingleTemplate tplSpec sourceDir targetDir w in
  ReadFile (history w) sourceDir (RelativeSourcePath tplSpec) = Ok templateContents →
  templatewrapper_Parse (JustCopy tplSpec) templateContents templateName = Ok tmplw →
  WithItems tplSpec = [] →
  (∃ cond_evs body_evs,
     history out.2
     = history w ++ EvReadFile (RelativeSourcePath tplSpec) :: pathEv :: cond_evs ++ body_evs ∧
     (∀ err, (renderString data pathName (RelativeTargetPath tplSpec)).2 = Some err →
        cond_evs = [] ∧ body_evs = []) ∧
     (∀ targetPath,
        renderString data pathName (RelativeTargetPath tplSpec) = (targetPath, None) →
        cond_evs = (if bool_decide (Condition tplSpec = "") then [] else [condEv]) ∧
        (evaluateCondition (Condition tplSpec) data condName = (true, None) →
         body_evs
         = EvTemplateWrite templateName data
           :: match templatewrapper_Write tmplw templateName data with
              | Ok buf => [EvWriteFile targetPath buf]
              | Err _ => []
              end ∧
         ∃ fr, out.1.1 = [fr] ∧ RelativeFilePath fr = targetPath) ∧
        (evaluateCondition (Condition tplSpec) data condName ≠ (true, None) →
         body_evs = []))) ∧
  (∀ prev w0 prevContents prevTmplw items item,
     ReadFile (history w0) sourceDir (RelativeSourcePath prev) = Ok prevContents →
     templatewrapper_Parse (JustCopy prev) prevContents
       (replace_slashes (RelativeSourcePath prev)) = Ok prevTmplw →
     WithItems prev = items ++ [item] →
     parameters (renderSingleTemplate prev sourceDir targetDir w0).2 !! "item" = Some item).
Proof.
  intros templateName data pathName condName pathEv condEv out Hread Hparse Hitems. split.
  - assert (Hbody : ∀ pre targetPath,
      ∃ fr w',
        match renderAndWriteFile tmplw templateName targetDir targetPath
                {| parameters := data; history := history w ++ pre |} with
        | (Some err, w') =>
            ([errorFileResult targetPath (body_error targetPath "" err)], false, w')
        | (None, w') => ([successFileResult targetPath], true, w')
        end = ([fr], FileSuccess fr, w') ∧
        RelativeFilePath fr = targetPath ∧
        history w'
        = history w ++ pre ++
          EvTemplateWrite templateName data
          :: match templatewrapper_Write tmplw templateName data with
             | Ok buf => [EvWriteFile targetPath buf]
             | Err _ => []
             end).
    { intros pre targetPath. unfold renderAndWriteFile, log. cbn [parameters history app].
      destruct (templatewrapper_Write tmplw templateName data) as [buf|err'].
      - destruct (WriteFile _ targetDir targetPath buf) as [err'|].
        + eexists (errorFileResult targetPath (body_error targetPath "" err')), _.
          split; [reflexivity|]. split; [reflexivity|].
          cbn [history]. by rewrite <- !app_assoc.
        + eexists (successFileResult targetPath), _.
          split; [reflexivity|]. split; [reflexivity|].
          cbn [history]. by rewrite <- !app_assoc.
      - eexists (errorFileResult targetPath (body_error targetPath "" err')), _.
        split; [reflexivity|]. split; [reflexivity|].
        cbn [history]. by rewrite <- !app_assoc. }
    subst out. unfold renderSingleTemplate. cbn [parameters log history]. fold templateName.
    rewrite Hread, Hparse, Hitems. unfold renderSingleTemplateIteration, log.
    cbn [parameters history]. fold data pathName condName pathEv condEv.
    destruct (renderString data pathName (RelativeTargetPath tplSpec))
      as [targetPath [err|]] eqn:Hp.
    + exists [], []. cbn [snd history]. rewrite <- app_assoc.
      split; [done|]. split; [done|]. intros targetPath' [=].
    + destruct (bool_decide (Condition tplSpec = "")) eqn:Hcond.
      * apply bool_decide_eq_true in Hcond.
        assert (Hev : evaluateCondition (Condition tplSpec) data condName = (true, None))
          by (by rewrite Hcond).
        cbn [parameters history app]. fold data. rewrite Hev.
        destruct (Hbody [EvReadFile (RelativeSourcePath tplSpec); pathEv] targetPath)
          as (fr & w' & Heq & Hfr & Hh).
        rewrite <- app_assoc. cbn [app]. rewrite Heq. cbn [fst snd].
        eexists [], _. split; [exact Hh|]. split; [intros err' [=]|].
        intros targetPath' [= <-]. split; [done|]. split; [|done].
        intros _. split; [reflexivity|]. by exists fr.
      * cbn [parameters history app]. fold data.
        destruct (evaluateCondition (Condition tplSpec) data condName) as [c [err'|]] eqn:Hev.
        -- exists [condEv], []. split; [|split; [intros err'' [=]|]].
           ++ destruct c; cbn [snd history]; by rewrite <- !app_assoc.
           ++ intros targetPath' [= <-]. split; [done|]. split; [intros [=]|done].
        -- destruct c.
           ++ destruct (Hbody [EvReadFile (RelativeSourcePath tplSpec); pathEv; condEv]
                          targetPath) as (fr & w' & Heq & Hfr & Hh).
              rewrite <- !app_assoc. cbn [app]. rewrite Heq. cbn [fst snd].
              eexists [condEv], _. split; [exact Hh|]. split; [intros err'' [=]|].
              intros targetPath' [= <-]. split; [done|]. split; [|done].
              intros _. split; [reflexivity|]. by exists fr.
           ++ exists [condEv], []. split; [|split; [intros err'' [=]|]].
              ** cbn [snd history]. by rewrite <- !app_assoc.
              ** intros targetPath' [= <-]. split; [done|]. split; [intros [=]|done].
  - intros prev w0 prevContents prevTmplw items item Hread0 Hparse0 Hitems0.
    unfold renderSingleTemplate. cbn [parameters log history].
    rewrite Hread0, Hparse0.
    destruct (renderItems_acc prev (replace_slashes (RelativeSourcePath prev)) prevTmplw
                targetDir (WithItems prev) 0 [] true
                (log (EvReadFile (RelativeSourcePath prev)) w0)) as (new & evs & Heq).
    destruct (WithItems prev) as [|i0 is0] eqn:Hw.
    { by destruct items. }
    rewrite Heq. cbn [snd parameters log]. rewrite Hitems0, foldl_insert_last.
    apply lookup_insert_eq.
Qed.

(** Every unit reports through the flag whether all its file results are
    successes. *)
Lemma renderSingleTemplate_flag tplSpec sourceDir targetDir w :
  (renderSingleTemplate tplSpec sourceDir targetDir w).1.2
  = forallb FileSuccess (renderSingleTemplate tplSpec sourceDir targetDir w).1.1.
Proof.
  unfold renderSingleTemplate. cbn [parameters log history].
  destruct (ReadFile _ _ _) as [templateContents|err]; [|done].
  destruct (templatewrapper_Parse _ _ _) as [tmplw|err]; [|done].
  destruct (WithItems tplSpec) as [|item items] eqn:Hw.
  - destruct (iteration_shape tplSpec (replace_slashes (RelativeSourcePath tplSpec)) "" ""
                [] true tmplw targetDir (log (EvReadFile (RelativeSourcePath tplSpec)) w))
      as (new & ce & be & Heq & _).
    by rewrite Heq.
  - destruct (renderItems_acc tplSpec (replace_slashes (RelativeSourcePath tplSpec)) tmplw
                targetDir (item :: items) 0 [] true
                (log (EvReadFile (RelativeSourcePath tplSpec)) w)) as (new & evs & Heq).
    by rewrite Heq.
Qed.

Lemma renderTemplates_flag templates sourceDir targetDir :
  ∀ renderedFiles allSuccessful w,
  ∃ new,
    (renderTemplates templates sourceDir targetDir renderedFiles allSuccessful w).1.1
    = renderedFiles ++ new ∧
    (renderTemplates templates sourceDir targetDir renderedFiles allSuccessful w).1.2
    = allSuccessful && forallb FileSuccess new.
Proof.
  induction templates as [|tplSpec templates IH]; intros renderedFiles allSuccessful w.
  - exists []. simpl. by rewrite app_nil_r, andb_true_r.
  - cbn [renderTemplates].
    pose proof (renderSingleTemplate_flag tplSpec sourceDir targetDir w) as Hflag.
    destruct (renderSingleTemplate tplSpec sourceDir targetDir w) as [[rendered success] w1].
    cbn [fst snd] in Hflag. subst success.
    destruct (IH (renderedFiles ++ rendered) (allSuccessful && forallb FileSuccess rendered) w1)
      as (new & Hfiles & Hok).
    exists (rendered ++ new). rewrite Hfiles, Hok, forallb_app, app_assoc, andb_assoc. done.
Qed.

Lemma Render_unfold request :
  (Render request).1 =
  match render_preparation request with
  | Err err => errorResponseToplevel err
  | Ok (genSpec, params) =>
      let out := renderAllTemplates genSpec (SourceBaseDir request) (TargetBaseDir request)
                   {| parameters := params; history := [] |} in
      if out.1.2 then successResponse out.1.1 else errorResponseRender out.1.1
  end.
Proof.
  unfold Render, render_preparation.
  destruct (ObtainRenderSpec _ _) as [renderSpec|e]; [|done]. simpl.
  destruct (ObtainGeneratorSpec _ _) as [genSpec|e]; [|done]. simpl.
  destruct (constructAndValidateParameterMap _ _) as [params|e]; [|done]. simpl.
  destruct (renderAllTemplates _ _ _ _) as [[files ok] w]. simpl. by destruct ok.
Qed.

(** C4 (as the code has it): a failure before any file-level work (loading
    the render spec or the generator spec, resolving and validating the
    parameters) gives a response with that single top-level error and no
    file result.  Otherwise the response carries the file results of all
    units, its success flag says whether all of them are successes, and
    its top-level error list is empty when they are and otherwise holds
    the one generic error that refers to the individual files. *)
Theorem render_toplevel_errors request :
  let resp := (Render request).1 in
  match render_preparation request with
  | Err err => resp = {| Success := false; RenderedFiles := []; Errors := [err] |}
  | Ok (genSpec, params) =>
      RenderedFiles resp
      = (renderAllTemplates genSpec (SourceBaseDir request) (TargetBaseDir request)
           {| parameters := params; history := [] |}).1.1 ∧
      Success resp = forallb FileSuccess (RenderedFiles resp) ∧
      Errors resp
      = if Success resp then []
        else ["an error occurred during rendering, see individual files"]
  end.
Proof.
  intros resp. subst resp. rewrite Render_unfold.
  destruct (render_preparation request) as [[genSpec params]|err]; [|done].
  unfold renderAllTemplates.
  destruct (renderTemplates_flag (Templates genSpec) (SourceBaseDir request)
              (TargetBaseDir request) [] true {| parameters := params; history := [] |})
    as (new & Hfiles & Hok).
  cbn [app andb] in *. cbv zeta. rewrite Hok, Hfiles.
  destruct (forallb FileSuccess new) eqn:Hall; simpl; by rewrite ?Hall.
Qed.

End TemplateLoop.

Section EntryPoints.
Context `{RT : GoRuntime} `{CO : Collaborators}.

Lemma extraneous_parameter_some genSpec supplied k :
  extraneous_parameter genSpec supplied = Some k →
  is_Some (supplied !! k) ∧ Variables genSpec !! k = None.
Proof.
  unfold extraneous_parameter.
  destruct (List.find _ _) as [[k' x]|] eqn:Hfind; [|done].
  intros [= <-]. apply List.find_some in Hfind as [Hin Hundeclared].
  apply list_elem_of_In in Hin. rewrite range_parameters_perm in Hin.
  apply elem_of_map_to_list in Hin. apply bool_decide_eq_true in Hundeclared.
  split; [by eexists|done].
Qed.

Lemma extraneous_parameter_none genSpec supplied k x :
  extraneous_parameter genSpec supplied = None →
  supplied !! k = Some x → is_Some (Variables genSpec !! k).
Proof.
  unfold extraneous_parameter.
  destruct (List.find _ _) as [[k' x']|] eqn:Hfind; [done|]. intros _ Hk.
  pose proof (List.find_none _ _ Hfind (k, x)) as Hnone.
  cbn in Hnone. apply bool_decide_eq_false in Hnone.
  - by apply not_eq_None_Some.
  - apply list_elem_of_In. rewrite range_parameters_perm. by apply elem_of_map_to_list.
Qed.

(** C3 (as the code has it): a call of [WriteRenderSpecWithValues] whose
    parameters hold a key that the generator spec does not declare always
    fails, with a single top-level error and no file result.  The unknown
    keys are looked for after resolve-with-fallback and resolve-and-validate
    have run: when one of these fails, its error is the one returned;
    when both pass, the error is the unknown-parameter error naming an
    undeclared key of the parameters. *)
Theorem unknown_parameter_rejected_after_validation request generatorName supplied
    genSpec k x :
  let resp := WriteRenderSpecWithValues request generatorName supplied in
  ObtainGeneratorSpec (SourceBaseDir request) generatorName = Ok genSpec →
  supplied !! k = Some x →
  Variables genSpec !! k = None →
  ∃ err, resp = {| Success := false; RenderedFiles := []; Errors := [err] |} ∧
    match constructRenderSpecWithValuesOrDefaults generatorName genSpec supplied VNil with
    | Err e => err = e
    | Ok renderSpec =>
        match constructAndValidateParameterMap genSpec renderSpec with
        | Err e => err = e
        | Ok _ =>
            ∃ k', is_Some (supplied !! k') ∧ Variables genSpec !! k' = None ∧
                  err = not_allowed_error k'
        end
    end.
Proof.
  intros resp Hgen Hk Hundeclared. subst resp. unfold WriteRenderSpecWithValues.
  rewrite Hgen.
  destruct (constructRenderSpecWithValuesOrDefaults _ _ _ _) as [renderSpec|e];
    [|by exists e].
  destruct (constructAndValidateParameterMap _ _) as [params|e]; [|by exists e].
  destruct (extraneous_parameter genSpec supplied) as [k'|] eqn:Hextra.
  - exists (not_allowed_error k'). split; [done|].
    apply extraneous_parameter_some in Hextra as [Hsup Hvar]. by exists k'.
  - exfalso. destruct (extraneous_parameter_none _ _ _ _ Hextra Hk) as [v Hv]. congruence.
Qed.

(** C8: [WriteRenderSpecWithDefaults] resolves with the empty string as
    [nilDefault] and persists the result without looking at any validation
    pattern.  Once the generator spec is loaded, the call fails only when a
    string default cannot be rendered (with that spec-authoring error) or
    when persisting fails (with that error); in the render spec it
    persists, every variable without default is the empty string. *)
Theorem write_defaults_skips_validation request generatorName genSpec :
  let resp := WriteRenderSpecWithDefaults request generatorName in
  let outcome :=
    constructRenderSpecWithValuesOrDefaults generatorName genSpec ∅ (VString "") in
  ObtainGeneratorSpec (SourceBaseDir request) generatorName = Ok genSpec →
  (∀ e, outcome = Err e →
     resp = errorResponseToplevel e ∧
     ∃ k v err, Variables genSpec !! k = Some v ∧ default_fails k v err ∧
                e = invalid_default_error k err) ∧
  (∀ rs, outcome = Ok rs →
     (∀ k v, Variables genSpec !! k = Some v → DefaultValue v = VNil →
             Parameters rs !! k = Some (VString "")) ∧
     (∀ k v, Variables genSpec !! k = Some v →
             ∃ x, Parameters rs !! k = Some x ∧ is_default_of (VString "") k v x) ∧
     resp = match WriteRenderSpec (TargetBaseDir request) rs (RenderSpecFile request) with
            | Ok targetFile => successResponse [successFileResult targetFile]
            | Err e => errorResponseToplevel e
            end) ∧
  ((∀ k v defaultStr, Variables genSpec !! k = Some v → DefaultValue v = VString defaultStr →
      ∃ x, renderStringDefaultFromTemplate k defaultStr = Ok x) →
   ∃ rs, outcome = Ok rs).
Proof.
  intros resp outcome Hgen.
  pose proof (resolve_spec generatorName genSpec ∅ (VString "")) as Hspec.
  fold outcome in Hspec.
  assert (Hresp : resp = match outcome with
                         | Err e => errorResponseToplevel e
                         | Ok rs =>
                             match WriteRenderSpec (TargetBaseDir request) rs
                                     (RenderSpecFile request) with
                             | Ok targetFile => successResponse [successFileResult targetFile]
                             | Err e => errorResponseToplevel e
                             end
                         end).
  { subst resp outcome. unfold WriteRenderSpecWithDefaults. rewrite Hgen.
    destruct (constructRenderSpecWithValuesOrDefaults _ _ _ _) as [rs|e]; [|done].
    by destruct (WriteRenderSpec _ _ _). }
  destruct outcome as [rs|e].
  - destruct Hspec as (_ & Hin & _). split; [done|]. split; [|by eauto].
    intros rs' [= <-]. split; [|split; [|done]].
    + intros k v Hk Hd. destruct (Hin k v Hk) as (x & Hx & Hlook).
      apply fallback_value_ok in Hx as [_ Hdef].
      specialize (Hdef eq_refl). unfold is_default_of in Hdef. rewrite Hd in Hdef.
      by subst x.
    + intros k v Hk. destruct (Hin k v Hk) as (x & Hx & Hlook).
      apply fallback_value_ok in Hx as [_ Hdef]. exists x. split; [done|]. by apply Hdef.
  - destruct Hspec as (k & v & Hk & Hx).
    apply fallback_value_err in Hx as (_ & err & Hfail & ->).
    split; [|split; [done|]].
    + intros e' [= <-]. split; [done|]. by exists k, v, err.
    + intros Hdefaults. exfalso.
      destruct (default_fails_render k v err Hfail) as (defaultStr & Hdv & Hr).
      destruct (Hdefaults k v defaultStr Hk Hdv) as (x & Hx). congruence.
Qed.

(** C10: a successful response of [WriteRenderSpecWithDefaults] or of
    [WriteRenderSpecWithValues] has the success flag set, no top-level
    error, and exactly one file result: a success without errors whose
    path is the file path that writing the render spec returned. *)
Theorem write_render_spec_success request generatorName supplied :
  (Success (WriteRenderSpecWithDefaults request generatorName) = true →
   ∃ genSpec renderSpec targetFile,
     ObtainGeneratorSpec (SourceBaseDir request) generatorName = Ok genSpec ∧
     constructRenderSpecWithValuesOrDefaults generatorName genSpec ∅ (VString "")
     = Ok renderSpec ∧
     WriteRenderSpec (TargetBaseDir request) renderSpec (RenderSpecFile request)
     = Ok targetFile ∧
     WriteRenderSpecWithDefaults request generatorName
     = {| Success := true;
          RenderedFiles := [{| FileSuccess := true; RelativeFilePath := targetFile;
                               FileErrors := [] |}];
          Errors := [] |}) ∧
  (Success (WriteRenderSpecWithValues request generatorName supplied) = true →
   ∃ genSpec renderSpec targetFile,
     ObtainGeneratorSpec (SourceBaseDir request) generatorName = Ok genSpec ∧
     constructRenderSpecWithValuesOrDefaults generatorName genSpec supplied VNil
     = Ok renderSpec ∧
     WriteRenderSpec (TargetBaseDir request) renderSpec (RenderSpecFile request)
     = Ok targetFile ∧
     WriteRenderSpecWithValues request generatorName supplied
     = {| Success := true;
          RenderedFiles := [{| FileSuccess := true; RelativeFilePath := targetFile;
                               FileErrors := [] |}];
          Errors := [] |}).
Proof.
  split.
  - unfold WriteRenderSpecWithDefaults.
    destruct (ObtainGeneratorSpec _ _) as [genSpec|e] eqn:Hg; [|done].
    destruct (constructRenderSpecWithValuesOrDefaults _ _ _ _) as [renderSpec|e] eqn:Hr;
      [|done].
    destruct (WriteRenderSpec _ _ _) as [targetFile|e] eqn:Hw; [|done].
    intros _. by exists genSpec, renderSpec, targetFile.
  - unfold WriteRenderSpecWithValues.
    destruct (ObtainGeneratorSpec _ _) as [genSpec|e] eqn:Hg; [|done].
    destruct (constructRenderSpecWithValuesOrDefaults _ _ _ _) as [renderSpec|e] eqn:Hr;
      [|done].
    destruct (constructAndValidateParameterMap _ _) as [params|e]; [|done].
    destruct (extraneous_parameter _ _) as [k|]; [done|].
    destruct (WriteRenderSpec _ _ _) as [targetFile|e] eqn:Hw; [|done].
    intros _. by exists genSpec, renderSpec, targetFile.
Qed.

End EntryPoints.

(** * The claims on the example generators *)

Section Witnesses.
Import Examples.

Lemma validation_pattern_is_searched_witness :
  Variables gen_main !! "name" = Some var_name ∧
  resolved_value spec_main "name" var_name = Ok (VString "abc123") ∧
  (∃ params, constructAndValidateParameterMap gen_main spec_main = Ok params) ∧
  regexp_MatchString "[a-z]+" "abc123" = Ok true ∧
  ∃ re, GoRegexp.Compile "[a-z]+" = Ok re ∧ GoRegexp.contains_match re "abc123".
Proof.
  assert (Hk : Variables gen_main !! "name" = Some var_name) by (vm_compute; reflexivity).
  assert (Hr : resolved_value spec_main "name" var_name = Ok (VString "abc123"))
    by (vm_compute; reflexivity).
  destruct (validation_pattern_is_searched (RT := reference_runtime) gen_main spec_main
              "name" var_name (VString "abc123") Hk ltac:(discriminate) Hr eq_refl)
    as (Hok & _ & _ & _ & Hsearch).
  assert (Hrun : constructAndValidateParameterMap gen_main spec_main
                 = Ok (Parameters spec_main)) by (vm_compute; reflexivity).
  split; [exact Hk|]. split; [exact Hr|].
  split; [exists (Parameters spec_main); exact Hrun|].
  destruct (Hok _ Hrun) as (_ & Hverdict).
  split; [exact Hverdict|].
  destruct (Hsearch eq_refl) as [Hspan _]. exact (Hspan Hverdict).
Defined.

Lemma condition_decides_rendering_witness :
  renderString params_skip "b.tmpl_path" "b.txt" = ("b.txt", None) ∧
  renderString params_skip "b.tmpl_condition" "{{.mode}}" = ("skip", None) ∧
  renderSingleTemplateIteration unit_conditional "b.tmpl" "" "" [] true tmpl_b "target"
    (world params_skip)
  = ([], true,
     log (EvRenderString "b.tmpl_condition" "{{.mode}}" params_skip)
       (log (EvRenderString "b.tmpl_path" "b.txt" params_skip) (world params_skip))).
Proof.
  assert (Hp : renderString params_skip "b.tmpl_path" "b.txt" = ("b.txt", None))
    by (vm_compute; reflexivity).
  assert (Hc : renderString params_skip "b.tmpl_condition" "{{.mode}}" = ("skip", None))
    by (vm_compute; reflexivity).
  split; [exact Hp|]. split; [exact Hc|].
  destruct (condition_decides_rendering unit_conditional "b.tmpl" "" "" [] true tmpl_b
              "target" (world params_skip) "b.txt" Hp) as (_ & Hcond).
  destruct (Hcond "skip" ltac:(discriminate) Hc) as (_ & Hskip & _).
  apply Hskip. unfold skip_words. apply list_elem_of_In. simpl. tauto.
Defined.

Lemma unknown_parameter_rejected_after_validation_witness :
  ObtainGeneratorSpec "generators" "main" = Ok gen_main ∧
  supplied_bogus !! "bogus" = Some (VString "x") ∧
  Variables gen_main !! "bogus" = None ∧
  ∃ err,
    WriteRenderSpecWithValues (request "out.yaml") "main" supplied_bogus
    = {| Success := false; RenderedFiles := []; Errors := [err] |} ∧
    ∃ k', is_Some (supplied_bogus !! k') ∧ Variables gen_main !! k' = None ∧
          err = not_allowed_error k'.
Proof.
  assert (Hg : ObtainGeneratorSpec "generators" "main" = Ok gen_main)
    by (vm_compute; reflexivity).
  assert (Hk : supplied_bogus !! "bogus" = Some (VString "x")) by (vm_compute; reflexivity).
  assert (Hu : Variables gen_main !! "bogus" = None) by (vm_compute; reflexivity).
  split; [exact Hg|]. split; [exact Hk|]. split; [exact Hu|].
  destruct (unknown_parameter_rejected_after_validation (request "out.yaml") "main"
              supplied_bogus gen_main "bogus" (VString "x") Hg Hk Hu) as (err & Hresp & Hm).
  exists err. split; [exact Hresp|].
  assert (Hr : constructRenderSpecWithValuesOrDefaults "main" gen_main supplied_bogus VNil
               = Ok spec_supplied) by (vm_compute; reflexivity).
  rewrite Hr in Hm.
  assert (Hv : constructAndValidateParameterMap gen_main spec_supplied = Ok supplied_name)
    by (vm_compute; reflexivity).
  rewrite Hv in Hm. exact Hm.
Defined.

Lemma path_failure_records_empty_path_witness :
  (renderString ∅ "b.tmpl_path" "out_{{.name").2
  = Some "template: b.tmpl_path: unclosed action" ∧
  renderSingleTemplateIteration unit_badpath "b.tmpl" "" "" [] true tmpl_b "target" (world ∅)
  = ([{| FileSuccess := false; RelativeFilePath := "";
         FileErrors := ["error evaluating target path from 'out_{{.name': template: b.tmpl_path: unclosed action"] |}],
     false,
     log (EvRenderString "b.tmpl_path" "out_{{.name" ∅) (world ∅)).
Proof.
  assert (Hp : (renderString ∅ ("b.tmpl" +:+ "_path" +:+ "") (RelativeTargetPath unit_badpath)).2
               = Some "template: b.tmpl_path: unclosed action") by (vm_compute; reflexivity).
  split; [exact Hp|].
  exact (path_failure_records_empty_path unit_badpath "b.tmpl" "" "" [] true tmpl_b "target"
           (world ∅) _ Hp).
Defined.

Lemma unit_without_items_sees_shared_map_witness :
  ReadFile [] "generators" "b.tmpl" = Ok "Bye {{.name}}" ∧
  templatewrapper_Parse false "Bye {{.name}}" "b.tmpl" = Ok tmpl_b ∧
  WithItems unit_plain = [] ∧
  renderString params_name "b.tmpl_path" "b_{{.item}}.txt" = ("b_<no value>.txt", None) ∧
  evaluateCondition "" params_name "b.tmpl_condition" = (true, None) ∧
  history (renderSingleTemplate unit_plain "generators" "target" (world params_name)).2
  = [EvReadFile "b.tmpl";
     EvRenderString "b.tmpl_path" "b_{{.item}}.txt" params_name;
     EvTemplateWrite "b.tmpl" params_name;
     EvWriteFile "b_<no value>.txt" "Bye abc123"] ∧
  parameters (renderSingleTemplate unit_items "generators" "target" (world params_name)).2
  !! "item" = Some (VInt 3).
Proof.
  assert (Hr : ReadFile (history (world params_name)) "generators"
                 (RelativeSourcePath unit_plain) = Ok "Bye {{.name}}")
    by (vm_compute; reflexivity).
  assert (Hp : templatewrapper_Parse (JustCopy unit_plain) "Bye {{.name}}"
                 (replace_slashes (RelativeSourcePath unit_plain)) = Ok tmpl_b)
    by reflexivity.
  assert (Hpath : renderString (parameters (world params_name))
                    (replace_slashes (RelativeSourcePath unit_plain) +:+ "_path" +:+ "")
                    (RelativeTargetPath unit_plain) = ("b_<no value>.txt", None))
    by (vm_compute; reflexivity).
  assert (Hcond : evaluateCondition (Condition unit_plain) (parameters (world params_name))
                    (replace_slashes (RelativeSourcePath unit_plain) +:+ "_condition" +:+ "")
                  = (true, None)) by reflexivity.
  split; [exact Hr|]. split; [exact Hp|]. split; [reflexivity|].
  split; [exact Hpath|]. split; [exact Hcond|].
  destruct (unit_without_items_sees_shared_map unit_plain "generators" "target"
              (world params_name) "Bye {{.name}}" tmpl_b Hr Hp eq_refl)
    as ((cond_evs & body_evs & Hh & _ & Hok) & Hleak).
  split.
  - destruct (Hok _ Hpath) as (Hc & Hb & _). destruct (Hb Hcond) as (Hbody & _).
    rewrite Hh, Hc, Hbody. reflexivity.
  - apply (Hleak unit_items (world params_name) "Hello {{.name}} {{.item}}" tmpl_a
             [VInt 1; VInt 2] (VInt 3)).
    + vm_compute; reflexivity.
    + reflexivity.
    + reflexivity.
Defined.


Lemma write_defaults_skips_validation_witness :
  ObtainGeneratorSpec "generators" "defaults" = Ok gen_defaults ∧
  check_value "fqdn" var_fqdn (VString "put in your fqdn here")
  = Err (pattern_violation_error "fqdn" "^[a-z.]+$") ∧
  WriteRenderSpecWithDefaults (request "defaults.yaml") "defaults"
  = successResponse [successFileResult "defaults.yaml"] ∧
  Parameters spec_defaults !! "owner" = Some (VString "").
Proof.
  assert (Hg : ObtainGeneratorSpec (SourceBaseDir (request "defaults.yaml")) "defaults"
               = Ok gen_defaults) by (vm_compute; reflexivity).
  assert (Hr : constructRenderSpecWithValuesOrDefaults "defaults" gen_defaults ∅ (VString "")
               = Ok spec_defaults) by (vm_compute; reflexivity).
  split; [exact Hg|]. split; [vm_compute; reflexivity|].
  destruct (write_defaults_skips_validation (request "defaults.yaml") "defaults"
              gen_defaults Hg) as (_ & Hok & _).
  destruct (Hok spec_defaults Hr) as (Hempty & _ & Hresp).
  split.
  - rewrite Hresp. vm_compute; reflexivity.
  - apply (Hempty "owner" var_owner); vm_compute; reflexivity.
Defined.

Lemma items_unit_renders_once_per_item_witness :
  ReadFile [] "generators" "src/a.tmpl" = Ok "Hello {{.name}} {{.item}}" ∧
  templatewrapper_Parse false "Hello {{.name}} {{.item}}" "src_a.tmpl" = Ok tmpl_a ∧
  WithItems unit_items ≠ [] ∧
  Condition unit_items = "" ∧
  ∃ files,
    (renderSingleTemplate unit_items "generators" "target" (world params_name)).1.1 = files ∧
    length files = 3 ∧
    RelativeFilePath <$> files = ["out_1.txt"; "out_2.txt"; "out_3.txt"].
Proof.
  assert (Hr : ReadFile (history (world params_name)) "generators"
                 (RelativeSourcePath unit_items) = Ok "Hello {{.name}} {{.item}}")
    by (vm_compute; reflexivity).
  assert (Hp : templatewrapper_Parse (JustCopy unit_items) "Hello {{.name}} {{.item}}"
                 (replace_slashes (RelativeSourcePath unit_items)) = Ok tmpl_a)
    by reflexivity.
  assert (Hi : WithItems unit_items ≠ []) by discriminate.
  split; [exact Hr|]. split; [exact Hp|]. split; [exact Hi|]. split; [reflexivity|].
  destruct (items_unit_renders_once_per_item unit_items "generators" "target"
              (world params_name) "Hello {{.name}} {{.item}}" tmpl_a Hr Hp Hi eq_refl)
    as (files & evs & w' & Heq & _ & Hlen & Hpaths & _).
  exists files. split; [by rewrite Heq|]. split; [exact Hlen|].
  rewrite Hpaths. vm_compute; reflexivity.
Defined.

Lemma write_render_spec_success_witness :
  Success (WriteRenderSpecWithDefaults (request "out.yaml") "defaults") = true ∧
  Success (WriteRenderSpecWithValues (request "out.yaml") "main" supplied_name) = true ∧
  (∃ targetFile,
     WriteRenderSpec "target" spec_supplied "out.yaml" = Ok targetFile ∧
     WriteRenderSpecWithValues (request "out.yaml") "main" supplied_name
     = {| Success := true;
          RenderedFiles := [{| FileSuccess := true; RelativeFilePath := targetFile;
                               FileErrors := [] |}];
          Errors := [] |}).
Proof.
  assert (Hd : Success (WriteRenderSpecWithDefaults (request "out.yaml") "defaults") = true)
    by (vm_compute; reflexivity).
  assert (Hv : Success (WriteRenderSpecWithValues (request "out.yaml") "main" supplied_name)
               = true) by (vm_compute; reflexivity).
  split; [exact Hd|]. split; [exact Hv|].
  destruct (write_render_spec_success (request "out.yaml") "main" supplied_name)
    as (_ & Hvalues).
  destruct (Hvalues Hv) as (genSpec & renderSpec & targetFile & Hg & Hr & Hw & Hresp).
  assert (Hg' : ObtainGeneratorSpec (SourceBaseDir (request "out.yaml")) "main" = Ok gen_main)
    by (vm_compute; reflexivity).
  rewrite Hg' in Hg. injection Hg as <-.
  assert (Hr' : constructRenderSpecWithValuesOrDefaults "main" gen_main supplied_name VNil
                = Ok spec_supplied) by (vm_compute; reflexivity).
  rewrite Hr' in Hr. injection Hr as <-.
  exists targetFile. split; [exact Hw|exact Hresp].
Defined.

Lemma render_toplevel_errors_witness :
  render_preparation (request "main.yaml") = Ok (gen_main, params_name) ∧
  Success (Render (request "main.yaml")).1
  = forallb FileSuccess (RenderedFiles (Render (request "main.yaml")).1) ∧
  Errors (Render (request "main.yaml")).1
  = if Success (Render (request "main.yaml")).1 then []
    else ["an error occurred during rendering, see individual files"].
Proof.
  assert (Hprep : render_preparation (request "main.yaml") = Ok (gen_main, params_name))
    by (vm_compute; reflexivity).
  split; [exact Hprep|].
  pose proof (render_toplevel_errors (request "main.yaml")) as Hspec.
  cbv zeta in Hspec. rewrite Hprep in Hspec. destruct Hspec as (_ & Hs & He).
  split; [exact Hs|exact He].
Defined.

(** The comparison of the rendered condition is exact: other spellings of
    the four words, and the words [true] and [1], render the file. *)
Lemma condition_words_examples :
  (λ text, (evaluateCondition text ∅ "c").1) <$>
    ["false"; "0"; "no"; "skip"; "False"; "SKIP"; "No"; "true"; "1"; "skipped"; " no"]
  = [false; false; false; false; true; true; true; true; true; true; true].
Proof. vm_compute; reflexivity. Qed.

(** ** Where the code departs from the specification *)

(** C1 is not what the code does: the value [abc123] passes the pattern
    [[a-z]+], which it does not fully match. *)
Lemma validation_accepts_partial_match :
  Variables gen_main !! "name" = Some var_name ∧
  ValidationPattern var_name = "[a-z]+" ∧
  constructAndValidateParameterMap gen_main spec_main = Ok (Parameters spec_main) ∧
  Parameters spec_main !! "name" = Some (VString "abc123") ∧
  Sprintf_v (VString "abc123") = "abc123" ∧
  GoRegexp.FullMatch "[a-z]+" "abc123" = Ok false.
Proof. repeat split; vm_compute; reflexivity. Qed.

(** C3 is not what the code does: with an undeclared key and a required
    parameter missing, the error is the required-parameter error. *)
Lemma unknown_parameter_masked_by_missing_parameter :
  supplied_only_bogus !! "bogus" = Some (VString "x") ∧
  Variables gen_main !! "bogus" = None ∧
  WriteRenderSpecWithValues (request "out.yaml") "main" supplied_only_bogus
  = {| Success := false; RenderedFiles := [];
       Errors := ["parameter 'name' is required but missing"] |} ∧
  "parameter 'name' is required but missing" ≠ not_allowed_error "bogus".
Proof. repeat split; try (vm_compute; reflexivity). discriminate. Qed.

(** C4 is not what the code does: every step before the template loop
    succeeds, one template fails to load, and the response has a top-level
    error. *)
Lemma file_failure_sets_toplevel_error :
  render_preparation (request "broken.yaml") = Ok (gen_broken, ∅) ∧
  (Render (request "broken.yaml")).1
  = {| Success := false;
       RenderedFiles :=
         [{| FileSuccess := false; RelativeFilePath := "x.txt";
             FileErrors := ["failed to load template missing.tmpl: open missing.tmpl: no such file or directory"] |}];
       Errors := ["an error occurred during rendering, see individual files"] |} ∧
  Errors (Render (request "broken.yaml")).1 ≠ [].
Proof. repeat split; try (vm_compute; reflexivity). discriminate. Qed.

(** C6 is not what the code does: the unit without items that follows a
    unit with items is rendered with the last item still under [item]; and
    a unit without items whose target path does not render evaluates
    neither its condition nor its body. *)
Lemma item_leaks_into_later_unit :
  Templates gen_main = [unit_items; unit_plain] ∧
  WithItems unit_plain = [] ∧
  Variables gen_main !! "item" = None ∧
  Parameters spec_main !! "item" = None ∧
  RelativeFilePath <$> RenderedFiles (Render (request "main.yaml")).1
  = ["out_1.txt"; "out_2.txt"; "out_3.txt"; "b_3.txt"] ∧
  rendered_strings (history (Render (request "main.yaml")).2) !! 3%nat
  = Some ("b.tmpl_path", "b_{{.item}}.txt", <["item" := VInt 3]> params_name) ∧
  (<["item" := VInt 3]> params_name : gmap string Value) !! "item" = Some (VInt 3) ∧
  WithItems unit_badpath = [] ∧
  history (Render (request "badpath.yaml")).2
  = [EvReadFile "b.tmpl"; EvRenderString "b.tmpl_path" "out_{{.name" ∅].
Proof. repeat split; vm_compute; reflexivity. Qed.

(** The failing input of C5 through [Render]: the recorded path is empty,
    not the unrendered target path of the unit. *)
Lemma render_path_failure_example :
  RelativeTargetPath unit_badpath = "out_{{.name" ∧
  (Render (request "badpath.yaml")).1
  = {| Success := false;
       RenderedFiles :=
         [{| FileSuccess := false; RelativeFilePath := "";
             FileErrors := ["error evaluating target path from 'out_{{.name': template: b.tmpl_path: unclosed action"] |}];
       Errors := ["an error occurred during rendering, see individual files"] |}.
Proof. split; vm_compute; reflexivity. Qed.

End Witnesses.

(** * Further properties of the resolver *)

Section ResolverMore.
Context `{RT : GoRuntime} `{CO : Collaborators}.

Lemma check_value_ok k v val x :
  check_value k v val = Ok x →
  x = val ∧ is_nil val = false ∧
  (ValidationPattern v ≠ "" →
   regexp_MatchString (ValidationPattern v) (Sprintf_v val) = Ok true).
Proof.
  unfold check_value. destruct (is_nil val); [done|].
  case_bool_decide as Hpat.
  - destruct (regexp_MatchString _ _) as [[|]|]; try done. by intros [= <-].
  - intros [= <-]. split; [done|]. split; [done|]. intros Hne. by destruct Hpat.
Qed.

Lemma check_value_err k v val e :
  check_value k v val = Err e →
  (is_nil val = true ∧ e = required_error k) ∨
  (is_nil val = false ∧ ValidationPattern v ≠ "" ∧
   ((regexp_MatchString (ValidationPattern v) (Sprintf_v val) = Ok false ∧
     e = pattern_violation_error k (ValidationPattern v)) ∨
    ∃ err, regexp_MatchString (ValidationPattern v) (Sprintf_v val) = Err err ∧
           e = invalid_pattern_error k err)).
Proof.
  unfold check_value. destruct (is_nil val); [intros [= <-]; by left|].
  case_bool_decide as Hpat; [|done].
  destruct (regexp_MatchString _ _) as [[|]|err]; try done.
  - intros [= <-]. right. split; [done|]. split; [done|]. by left.
  - intros [= <-]. right. split; [done|]. split; [done|]. right. by exists err.
Qed.

Lemma resolved_value_present renderSpec k v val :
  Parameters renderSpec !! k = Some val → resolved_value renderSpec k v = Ok val.
Proof. intros Hk. unfold resolved_value. by rewrite Hk. Qed.

Lemma fallback_value_nonnil supplied nilDefault k v x :
  is_nil nilDefault = false →
  fallback_value supplied nilDefault k v = Ok x → is_nil x = false.
Proof.
  intros Hnd. unfold fallback_value.
  destruct (is_nil (go_index supplied k)) eqn:Hnil.
  - destruct (DefaultValue v) eqn:Hd; try by intros [= <-].
    intros Hr. apply renderStringDefault_ok in Hr as (tmpl & out & _ & _ & ->). done.
  - by intros [= <-].
Qed.

(** X1 (lines 166-198): when [constructAndValidateParameterMap] succeeds,
    the parameter map it returns has exactly the declared variables as
    keys and no nil value; a declared variable that the render spec has an
    entry for keeps that entry, and the entries of the render spec under
    undeclared names are not in the map. *)
Theorem validated_map_has_declared_keys genSpec renderSpec params :
  constructAndValidateParameterMap genSpec renderSpec = Ok params →
  dom params = dom (Variables genSpec) ∧
  (∀ k val, params !! k = Some val → val ≠ VNil) ∧
  (∀ k v val, Variables genSpec !! k = Some v → Parameters renderSpec !! k = Some val →
              params !! k = Some val) ∧
  (∀ k, Variables genSpec !! k = None → params !! k = None).
Proof.
  intros Hok. pose proof (validate_spec genSpec renderSpec) as Hspec.
  rewrite Hok in Hspec. destruct Hspec as [Hin Hout].
  split; [|split; [|split; [|done]]].
  - apply set_eq. intros k. rewrite !elem_of_dom.
    destruct (Variables genSpec !! k) as [v|] eqn:Hk.
    + destruct (Hin k v Hk) as (x & _ & Hx). rewrite Hx. split; eauto.
    + rewrite (Hout k Hk). split; intros [? ?]; done.
  - intros k val Hval. destruct (Variables genSpec !! k) as [v|] eqn:Hk.
    + destruct (Hin k v Hk) as (x & Hx & Hlook). rewrite Hlook in Hval.
      injection Hval as ->. unfold validated_value in Hx.
      destruct (resolved_value renderSpec k v) as [val0|]; [|done]. simpl in Hx.
      apply check_value_ok in Hx as (-> & Hnil & _). by apply is_nil_false.
    + rewrite (Hout k Hk) in Hval. done.
  - intros k v val Hk Hrs. destruct (Hin k v Hk) as (x & Hx & Hlook).
    unfold validated_value in Hx. rewrite (resolved_value_present _ _ _ _ Hrs) in Hx.
    simpl in Hx. apply check_value_ok in Hx as (-> & _). done.
Qed.

(** X2 (lines 169-185): an entry of the render spec that is there with a
    nil value makes [constructAndValidateParameterMap] fail, whatever
    default the variable declares: the default is only used when the key
    is missing.  The error is the required-parameter error of the variable
    when no other variable fails. *)
Theorem nil_entry_is_required_error genSpec renderSpec k v :
  Variables genSpec !! k = Some v →
  Parameters renderSpec !! k = Some VNil →
  (∃ e, constructAndValidateParameterMap genSpec renderSpec = Err e) ∧
  ((∀ k' v', k' ≠ k → Variables genSpec !! k' = Some v' →
      ∃ x, validated_value renderSpec k' v' = Ok x) →
   constructAndValidateParameterMap genSpec renderSpec = Err (required_error k)).
Proof.
  intros Hk Hnil. apply (validate_fails_for genSpec renderSpec k v _ Hk).
  unfold validated_value. by rewrite (resolved_value_present _ _ _ _ Hnil).
Qed.

(** X3 (lines 68-73, 121-198): validating the render spec that
    resolve-with-fallback has just built changes nothing: when both
    succeed, the validated parameter map is the parameter map of the
    render spec. *)
Theorem validated_map_is_render_spec generatorName genSpec supplied nilDefault rs params :
  constructRenderSpecWithValuesOrDefaults generatorName genSpec supplied nilDefault = Ok rs →
  constructAndValidateParameterMap genSpec rs = Ok params →
  params = Parameters rs.
Proof.
  intros Hrs Hok.
  pose proof (resolve_spec generatorName genSpec supplied nilDefault) as Hres.
  rewrite Hrs in Hres. destruct Hres as (_ & Hrin & Hrout).
  pose proof (validate_spec genSpec rs) as Hspec.
  rewrite Hok in Hspec. destruct Hspec as [Hin Hout].
  apply map_eq. intros k. destruct (Variables genSpec !! k) as [v|] eqn:Hk.
  - destruct (Hrin k v Hk) as (y & _ & Hy). destruct (Hin k v Hk) as (x & Hx & Hlook).
    unfold validated_value in Hx. rewrite (resolved_value_present _ _ _ _ Hy) in Hx.
    simpl in Hx. apply check_value_ok in Hx as (-> & _). by rewrite Hlook, Hy.
  - by rewrite (Hout k Hk), (Hrout k Hk).
Qed.

(** X4 (lines 40-42, 121-147, 183-194): a render spec built with a non-nil
    [nilDefault], as [WriteRenderSpecWithDefaults] does with the empty
    string, has a non-nil entry for every declared variable; validating it
    can therefore fail only on a validation pattern, never with a
    required-parameter error or on a default. *)
Theorem non_nil_default_spec_fails_only_on_patterns generatorName genSpec supplied
    nilDefault rs :
  is_nil nilDefault = false →
  constructRenderSpecWithValuesOrDefaults generatorName genSpec supplied nilDefault = Ok rs →
  (∀ k v, Variables genSpec !! k = Some v →
          ∃ val, Parameters rs !! k = Some val ∧ val ≠ VNil) ∧
  (∀ e, constructAndValidateParameterMap genSpec rs = Err e →
     ∃ k v val,
       Variables genSpec !! k = Some v ∧ Parameters rs !! k = Some val ∧
       ValidationPattern v ≠ "" ∧
       ((regexp_MatchString (ValidationPattern v) (Sprintf_v val) = Ok false ∧
         e = pattern_violation_error k (ValidationPattern v)) ∨
        ∃ err, regexp_MatchString (ValidationPattern v) (Sprintf_v val) = Err err ∧
               e = invalid_pattern_error k err)).
Proof.
  intros Hnd Hrs.
  pose proof (resolve_spec generatorName genSpec supplied nilDefault) as Hres.
  rewrite Hrs in Hres. destruct Hres as (_ & Hrin & _).
  assert (Hnn : ∀ k v, Variables genSpec !! k = Some v →
                  ∃ val, Parameters rs !! k = Some val ∧ is_nil val = false).
  { intros k v Hk. destruct (Hrin k v Hk) as (x & Hx & Hlook). exists x.
    split; [done|]. by apply (fallback_value_nonnil _ _ _ _ _ Hnd Hx). }
  split.
  - intros k v Hk. destruct (Hnn k v Hk) as (val & Hlook & Hnil).
    exists val. split; [done|]. by apply is_nil_false.
  - intros e Herr. pose proof (validate_spec genSpec rs) as Hspec.
    rewrite Herr in Hspec. destruct Hspec as (k & v & Hk & Hv).
    destruct (Hnn k v Hk) as (val & Hlook & Hnil).
    unfold validated_value in Hv. rewrite (resolved_value_present _ _ _ _ Hlook) in Hv.
    simpl in Hv. apply check_value_err in Hv as [[Hnil' _]|(_ & Hpat & Hcases)].
    + congruence.
    + by exists k, v, val.
Qed.

(** X5 (lines 57-90): when [WriteRenderSpecWithValues] reports success,
    every supplied key is a declared variable, and the render spec it has
    passed on to be written has exactly the declared variables as keys,
    each with a non-nil value that its validation pattern, if any,
    accepts. *)
Theorem write_values_success_is_valid request generatorName supplied :
  Success (WriteRenderSpecWithValues request generatorName supplied) = true →
  ∃ genSpec rs targetFile,
    ObtainGeneratorSpec (SourceBaseDir request) generatorName = Ok genSpec ∧
    constructRenderSpecWithValuesOrDefaults generatorName genSpec supplied VNil = Ok rs ∧
    WriteRenderSpec (TargetBaseDir request) rs (RenderSpecFile request) = Ok targetFile ∧
    (∀ k, is_Some (supplied !! k) → is_Some (Variables genSpec !! k)) ∧
    dom (Parameters rs) = dom (Variables genSpec) ∧
    (∀ k v, Variables genSpec !! k = Some v →
       ∃ val, Parameters rs !! k = Some val ∧ val ≠ VNil ∧
              (ValidationPattern v ≠ "" →
               regexp_MatchString (ValidationPattern v) (Sprintf_v val) = Ok true)).
Proof.
  unfold WriteRenderSpecWithValues.
  destruct (ObtainGeneratorSpec _ _) as [genSpec|e] eqn:Hg; [|done].
  destruct (constructRenderSpecWithValuesOrDefaults _ _ _ _) as [rs|e] eqn:Hrs; [|done].
  destruct (constructAndValidateParameterMap _ _) as [params|e] eqn:Hok; [|done].
  destruct (extraneous_parameter _ _) as [k|] eqn:Hextra; [done|].
  destruct (WriteRenderSpec _ _ _) as [targetFile|e] eqn:Hw; [|done].
  intros _. exists genSpec, rs, targetFile.
  pose proof (resolve_spec generatorName genSpec supplied VNil) as Hres.
  rewrite Hrs in Hres. destruct Hres as (_ & Hrin & Hrout).
  pose proof (validate_spec genSpec rs) as Hspec.
  rewrite Hok in Hspec. destruct Hspec as [Hin _].
  split; [done|]. split; [done|]. split; [done|]. split; [|split].
  - intros k [x Hx]. by apply (extraneous_parameter_none _ _ _ _ Hextra Hx).
  - apply set_eq. intros k. rewrite !elem_of_dom.
    destruct (Variables genSpec !! k) as [v|] eqn:Hk.
    + destruct (Hrin k v Hk) as (x & _ & Hx). rewrite Hx. split; eauto.
    + rewrite (Hrout k Hk). split; intros [? ?]; done.
  - intros k v Hk. destruct (Hrin k v Hk) as (y & _ & Hy).
    destruct (Hin k v Hk) as (x & Hx & _).
    unfold validated_value in Hx. rewrite (resolved_value_present _ _ _ _ Hy) in Hx.
    simpl in Hx. apply check_value_ok in Hx as (-> & Hnil & Hpat).
    exists y. split; [done|]. split; [by apply is_nil_false|done].
Qed.

(** X6 (lines 66-76, 129-131, 183-185): [WriteRenderSpecWithValues] fails
    when a declared variable without default is given no value (no entry,
    or a nil one): resolve-with-fallback stores nil for it and the
    validation that follows rejects the nil.  The call fails with one
    top-level error and no file result; the error is the
    required-parameter error of the variable when the resolve succeeds and
    no other variable fails the validation. *)
Theorem write_values_requires_parameters request generatorName supplied genSpec k v :
  let resp := WriteRenderSpecWithValues request generatorName supplied in
  ObtainGeneratorSpec (SourceBaseDir request) generatorName = Ok genSpec →
  Variables genSpec !! k = Some v →
  DefaultValue v = VNil →
  go_index supplied k = VNil →
  (∃ err, resp = {| Success := false; RenderedFiles := []; Errors := [err] |}) ∧
  (∀ rs,
     constructRenderSpecWithValuesOrDefaults generatorName genSpec supplied VNil = Ok rs →
     (∀ k' v', k' ≠ k → Variables genSpec !! k' = Some v' →
               ∃ x, validated_value rs k' v' = Ok x) →
     resp = {| Success := false; RenderedFiles := []; Errors := [required_error k] |}).
Proof.
  intros resp Hg Hk Hd Hnil. subst resp. unfold WriteRenderSpecWithValues. rewrite Hg.
  pose proof (resolve_spec generatorName genSpec supplied VNil) as Hres.
  destruct (constructRenderSpecWithValuesOrDefaults _ _ _ _) as [rs|e].
  - destruct Hres as (_ & Hrin & _). destruct (Hrin k v Hk) as (x & Hx & Hlook).
    unfold fallback_value in Hx. rewrite Hnil, Hd in Hx. simpl in Hx.
    injection Hx as <-.
    assert (Hv : validated_value rs k v = Err (required_error k)).
    { unfold validated_value. by rewrite (resolved_value_present _ _ _ _ Hlook). }
    destruct (validate_fails_for genSpec rs k v _ Hk Hv) as [[e He] Honly].
    split.
    + exists e. by rewrite He.
    + intros rs' [= <-] Hothers. by rewrite (Honly Hothers).
  - split; [by exists e|]. intros rs' Heq. done.
Qed.

End ResolverMore.

(** * Further properties of the template loop *)

Section TemplateLoopMore.
Context `{RT : GoRuntime} `{CO : Collaborators}.

Lemma audited_nil : audited [] [].
Proof.
  split; [constructor|]. split.
  - intros p b Hin. by apply elem_of_nil in Hin.
  - intros fr Hin. by apply elem_of_nil in Hin.
Qed.

Lemma audited_app new1 evs1 new2 evs2 :
  audited new1 evs1 → audited new2 evs2 → audited (new1 ++ new2) (evs1 ++ evs2).
Proof.
  intros (Hwf1 & Hw1 & Hs1) (Hwf2 & Hw2 & Hs2). split; [by apply Forall_app|]. split.
  - intros p b Hin. apply elem_of_app in Hin as [Hin|Hin].
    + destruct (Hw1 p b Hin) as (fr & Hfr & Hp). exists fr. split; [|done].
      apply elem_of_app. by left.
    + destruct (Hw2 p b Hin) as (fr & Hfr & Hp). exists fr. split; [|done].
      apply elem_of_app. by right.
  - intros fr Hin Hok. apply elem_of_app in Hin as [Hin|Hin].
    + destruct (Hs1 fr Hin Hok) as (b & Hb). exists b. apply elem_of_app. by left.
    + destruct (Hs2 fr Hin Hok) as (b & Hb). exists b. apply elem_of_app. by right.
Qed.

(** Events that are no writes change nothing to what is reported. *)
Lemma audited_failure p err evs :
  (∀ p' b, EvWriteFile p' b ∉ evs) → audited [errorFileResult p err] evs.
Proof.
  intros Hno. split; [by repeat constructor|]. split.
  - intros p' b Hin. by destruct (Hno p' b).
  - intros fr Hin. apply list_elem_of_singleton in Hin as ->. done.
Qed.

Lemma audited_skip evs : (∀ p' b, EvWriteFile p' b ∉ evs) → audited [] evs.
Proof.
  intros Hno. split; [constructor|]. split.
  - intros p' b Hin. by destruct (Hno p' b).
  - intros fr Hin. by apply elem_of_nil in Hin.
Qed.

(** A write on the path of the one file result, whatever it reports. *)
Lemma audited_written fr evs buf :
  well_formed_result fr →
  (∀ p' b, EvWriteFile p' b ∉ evs) →
  audited [fr] (evs ++ [EvWriteFile (RelativeFilePath fr) buf]).
Proof.
  intros Hwf Hno. split; [by repeat constructor|]. split.
  - intros p' b Hin. apply elem_of_app in Hin as [Hin|Hin]; [by destruct (Hno p' b)|].
    apply list_elem_of_singleton in Hin. injection Hin as -> ->.
    exists fr. split; [apply list_elem_of_singleton|]; done.
  - intros fr' Hin _. apply list_elem_of_singleton in Hin as ->.
    exists buf. apply elem_of_app. right. by apply list_elem_of_singleton.
Qed.

Ltac no_write :=
  let p := fresh in let b := fresh in let Hin := fresh in
  intros p b Hin;
  repeat (apply elem_of_cons in Hin as [Hin|Hin]; [discriminate Hin|]);
  by apply elem_of_nil in Hin.

(** One iteration, audited. *)
Lemma iteration_audit tplSpec templateName ext errExt renderedFiles allSuccessful tmpl
    targetDir w :
  ∃ new evs,
    renderSingleTemplateIteration tplSpec templateName ext errExt renderedFiles
      allSuccessful tmpl targetDir w
    = (renderedFiles ++ new, allSuccessful && forallb FileSuccess new,
       {| parameters := parameters w; history := history w ++ evs |}) ∧
    (length new ≤ 1)%nat ∧ audited new evs.
Proof.
  unfold renderSingleTemplateIteration. cbn [parameters log history].
  set (data := parameters w).
  set (pathName := templateName +:+ "_path" +:+ ext).
  set (condName := templateName +:+ "_condition" +:+ ext).
  set (pathEv := EvRenderString pathName (RelativeTargetPath tplSpec) data).
  set (condEv := EvRenderString condName (Condition tplSpec) data).
  assert (Hbody : ∀ pre targetPath,
    (∀ p' b, EvWriteFile p' b ∉ pre) →
    ∃ new evs,
      match renderAndWriteFile tmpl templateName targetDir targetPath
              {| parameters := data; history := history w ++ pre |} with
      | (Some err, w') =>
          (renderedFiles ++ [errorFileResult targetPath (body_error targetPath errExt err)],
           false, w')
      | (None, w') => (renderedFiles ++ [successFileResult targetPath], allSuccessful, w')
      end
      = (renderedFiles ++ new, allSuccessful && forallb FileSuccess new,
         {| parameters := data; history := history w ++ evs |}) ∧
      (length new ≤ 1)%nat ∧ audited new evs).
  { intros pre targetPath Hpre. unfold renderAndWriteFile. cbn [parameters log history].
    assert (Hpre' : ∀ p' b, EvWriteFile p' b ∉ pre ++ [EvTemplateWrite templateName data]).
    { intros p' b Hin. apply elem_of_app in Hin as [Hin|Hin]; [by destruct (Hpre p' b)|].
      by apply list_elem_of_singleton in Hin. }
    destruct (templatewrapper_Write tmpl templateName data) as [buf|err].
    - destruct (WriteFile _ targetDir targetPath buf) as [err|].
      + exists [errorFileResult targetPath (body_error targetPath errExt err)],
          ((pre ++ [EvTemplateWrite templateName data]) ++ [EvWriteFile targetPath buf]).
        cbn [forallb FileSuccess errorFileResult]. rewrite andb_false_r, !app_assoc.
        split; [done|]. split; [simpl; lia|].
        by apply (audited_written (errorFileResult targetPath _)).
      + exists [successFileResult targetPath],
          ((pre ++ [EvTemplateWrite templateName data]) ++ [EvWriteFile targetPath buf]).
        cbn [forallb FileSuccess successFileResult]. rewrite andb_true_r, !app_assoc.
        split; [done|]. split; [simpl; lia|].
        by apply (audited_written (successFileResult targetPath)).
    - exists [errorFileResult targetPath (body_error targetPath errExt err)],
        (pre ++ [EvTemplateWrite templateName data]).
      cbn [forallb FileSuccess errorFileResult]. rewrite andb_false_r, !app_assoc.
      split; [done|]. split; [simpl; lia|]. by apply audited_failure. }
  destruct (renderString data pathName (RelativeTargetPath tplSpec)) as [targetPath [err|]].
  - exists [errorFileResult targetPath (path_error (RelativeTargetPath tplSpec) errExt err)],
      [pathEv].
    unfold log. cbn [forallb FileSuccess errorFileResult parameters history andb].
    rewrite andb_false_r.
    split; [done|]. split; [simpl; lia|]. apply audited_failure. no_write.
  - destruct (bool_decide (Condition tplSpec = "")) eqn:Hcond.
    + apply bool_decide_eq_true in Hcond. rewrite Hcond, evaluateCondition_empty.
      unfold log. cbn [parameters history]. apply (Hbody [pathEv]). no_write.
    + cbn [parameters log history]. fold data.
      destruct (evaluateCondition (Condition tplSpec) data condName) as [c [err|]].
      * exists [errorFileResult targetPath (condition_error (Condition tplSpec) errExt err)],
          [pathEv; condEv].
        unfold log. cbn [forallb FileSuccess errorFileResult parameters history andb].
        destruct c; rewrite andb_false_r, <- app_assoc;
          (split; [done|]; split; [simpl; lia|]; apply audited_failure; no_write).
      * destruct c.
        -- unfold log. cbn [parameters history]. rewrite <- app_assoc.
           apply (Hbody [pathEv; condEv]). no_write.
        -- exists [], [pathEv; condEv]. unfold log. cbn [parameters history forallb length].
           rewrite andb_true_r, app_nil_r, <- app_assoc.
           split; [done|]. split; [lia|]. apply audited_skip. no_write.
Qed.

Lemma renderItems_full tplSpec templateName tmplw targetDir items :
  ∀ counter renderedFiles allSuccessful w,
  ∃ new evs,
    renderItems tplSpec templateName tmplw targetDir items counter renderedFiles
      allSuccessful w
    = (renderedFiles ++ new, allSuccessful && forallb FileSuccess new,
       {| parameters := foldl (λ m x, <["item" := x]> m) (parameters w) items;
          history := history w ++ evs |}) ∧
    (length new ≤ length items)%nat ∧ audited new evs.
Proof.
  induction items as [|item items IH]; intros counter renderedFiles allSuccessful w.
  - exists [], []. simpl. rewrite andb_true_r, !app_nil_r.
    split; [by destruct w|]. split; [lia|]. apply audited_nil.
  - cbn [renderItems].
    destruct (iteration_audit tplSpec templateName ("_" +:+ Sprintf_d (counter + 1))
                (" for item #" +:+ Sprintf_d (counter + 1)) renderedFiles allSuccessful
                tmplw targetDir (set_parameter "item" item w))
      as (new1 & evs1 & Heq & Hlen1 & Haud1).
    rewrite Heq.
    edestruct (IH (S counter)) as (new2 & evs2 & Heq2 & Hlen2 & Haud2).
    rewrite Heq2. exists (new1 ++ new2), (evs1 ++ evs2).
    cbn [parameters history set_parameter foldl] in *.
    split; [|split].
    + by rewrite forallb_app, !andb_assoc, <- !app_assoc.
    + rewrite length_app. simpl. lia.
    + by apply audited_app.
Qed.

Lemma unit_full tplSpec sourceDir targetDir w :
  ∃ new evs w',
    renderSingleTemplate tplSpec sourceDir targetDir w = (new, forallb FileSuccess new, w') ∧
    history w' = history w ++ evs ∧
    (length new ≤ max 1 (length (WithItems tplSpec)))%nat ∧
    audited new evs.
Proof.
  unfold renderSingleTemplate. cbn [parameters log history].
  assert (Hread : ∀ p' b, EvWriteFile p' b ∉ [EvReadFile (RelativeSourcePath tplSpec)])
    by no_write.
  destruct (ReadFile _ _ _) as [templateContents|err].
  2:{ exists [errorFileResult (RelativeTargetPath tplSpec)
                (load_error (RelativeSourcePath tplSpec) err)],
        [EvReadFile (RelativeSourcePath tplSpec)],
        (log (EvReadFile (RelativeSourcePath tplSpec)) w).
      split; [reflexivity|]. split; [reflexivity|].
      split; [simpl; lia|]. by apply audited_failure. }
  destruct (templatewrapper_Parse _ _ _) as [tmplw|err].
  2:{ exists [errorFileResult (RelativeTargetPath tplSpec)
                (parse_error (RelativeSourcePath tplSpec) err)],
        [EvReadFile (RelativeSourcePath tplSpec)],
        (log (EvReadFile (RelativeSourcePath tplSpec)) w).
      split; [reflexivity|]. split; [reflexivity|].
      split; [simpl; lia|]. by apply audited_failure. }
  destruct (WithItems tplSpec) as [|item items] eqn:Hitems.
  - destruct (iteration_audit tplSpec (replace_slashes (RelativeSourcePath tplSpec)) "" ""
                [] true tmplw targetDir (log (EvReadFile (RelativeSourcePath tplSpec)) w))
      as (new & evs & Heq & Hlen & Haud).
    rewrite Heq. cbn [parameters log history app andb] in *.
    eexists new, ([EvReadFile (RelativeSourcePath tplSpec)] ++ evs), _.
    split; [reflexivity|]. cbn [history parameters].
    split; [by rewrite <- app_assoc|]. split; [simpl; lia|].
    apply (audited_app [] _ new evs); [by apply audited_skip|done].
  - destruct (renderItems_full tplSpec (replace_slashes (RelativeSourcePath tplSpec)) tmplw
                targetDir (item :: items) 0 [] true
                (log (EvReadFile (RelativeSourcePath tplSpec)) w))
      as (new & evs & Heq & Hlen & Haud).
    rewrite Heq. cbn [parameters log history app andb] in *.
    eexists new, ([EvReadFile (RelativeSourcePath tplSpec)] ++ evs), _.
    split; [reflexivity|]. cbn [history parameters].
    split; [by rewrite <- app_assoc|]. split; [simpl in *; lia|].
    apply (audited_app [] _ new evs); [by apply audited_skip|done].
Qed.

Lemma templates_full templates sourceDir targetDir :
  ∀ renderedFiles allSuccessful w,
  ∃ new evs w',
    renderTemplates templates sourceDir targetDir renderedFiles allSuccessful w
    = (renderedFiles ++ new, allSuccessful && forallb FileSuccess new, w') ∧
    history w' = history w ++ evs ∧
    audited new evs.
Proof.
  induction templates as [|tplSpec templates IH]; intros renderedFiles allSuccessful w.
  - exists [], [], w. simpl. rewrite andb_true_r, !app_nil_r.
    split; [done|]. split; [done|]. apply audited_nil.
  - cbn [renderTemplates].
    destruct (unit_full tplSpec sourceDir targetDir w)
      as (new1 & evs1 & w1 & Heq & Hh1 & _ & Haud1).
    rewrite Heq.
    destruct (IH (renderedFiles ++ new1) (allSuccessful && forallb FileSuccess new1) w1)
      as (new2 & evs2 & w2 & Heq2 & Hh2 & Haud2).
    rewrite Heq2. exists (new1 ++ new2), (evs1 ++ evs2), w2.
    split; [by rewrite forallb_app, !andb_assoc, <- !app_assoc|].
    split; [by rewrite Hh2, Hh1, <- app_assoc|].
    by apply audited_app.
Qed.

Lemma Render_pair request :
  Render request =
  match render_preparation request with
  | Err err => (errorResponseToplevel err, {| parameters := ∅; history := [] |})
  | Ok (genSpec, params) =>
      let out := renderAllTemplates genSpec (SourceBaseDir request) (TargetBaseDir request)
                   {| parameters := params; history := [] |} in
      (if out.1.2 then successResponse out.1.1 else errorResponseRender out.1.1, out.2)
  end.
Proof.
  unfold Render, render_preparation.
  destruct (ObtainRenderSpec _ _) as [renderSpec|e]; [|done]. simpl.
  destruct (ObtainGeneratorSpec _ _) as [genSpec|e]; [|done]. simpl.
  destruct (constructAndValidateParameterMap _ _) as [params|e]; [|done]. simpl.
  by destruct (renderAllTemplates _ _ _ _) as [[files ok] w].
Qed.

(** What [Render] returns, with what the template loop guarantees. *)
Lemma Render_full request :
  ∃ files evs,
    RenderedFiles (Render request).1 = files ∧
    history (Render request).2 = evs ∧
    audited files evs.
Proof.
  rewrite Render_pair. destruct (render_preparation request) as [[genSpec params]|err].
  - unfold renderAllTemplates.
    destruct (templates_full (Templates genSpec) (SourceBaseDir request)
                (TargetBaseDir request) [] true {| parameters := params; history := [] |})
      as (new & evs & w' & Heq & Hh & Haud).
    cbv zeta. rewrite Heq. cbn [fst snd app andb parameters history] in *.
    exists new, evs. split; [by destruct (forallb FileSuccess new)|]. by split.
  - exists [], []. split; [done|]. split; [done|]. apply audited_nil.
Qed.

(** X7 (lines 92-117, 200-260, 324-337): every file result of a [Render]
    response carries no error if it is a success and exactly one error if
    it is a failure. *)
Theorem render_results_well_formed request :
  Forall well_formed_result (RenderedFiles (Render request).1).
Proof.
  destruct (Render_full request) as (files & evs & <- & _ & (Hwf & _)). exact Hwf.
Qed.

(** X8 (lines 92-117, 200-283): during a [Render] call, [WriteFile] is
    only called on the path of a file result of the response, and every
    file result that is a success has had [WriteFile] called on its path;
    a call that fails before the template loop calls it on nothing. *)
Theorem render_writes_are_reported request :
  writes_reported (RenderedFiles (Render request).1) (history (Render request).2).
Proof.
  destruct (Render_full request) as (files & evs & <- & <- & (_ & Hw)). exact Hw.
Qed.

(** X10 (lines 211-236): a unit yields at most one file result per item,
    and at most one when it has no items.  A unit whose source cannot be
    loaded, or cannot be parsed, yields a single failure that carries its
    unrendered target path, however many items it has, and nothing else is
    done for it: no item is set and the template engine is not run. *)
Theorem unit_results_bounded tplSpec sourceDir targetDir w :
  let templateName := replace_slashes (RelativeSourcePath tplSpec) in
  let out := renderSingleTemplate tplSpec sourceDir targetDir w in
  (length out.1.1 ≤ max 1 (length (WithItems tplSpec)))%nat ∧
  (∀ err,
     ReadFile (history w) sourceDir (RelativeSourcePath tplSpec) = Err err →
     out = ([{| FileSuccess := false; RelativeFilePath := RelativeTargetPath tplSpec;
                FileErrors := [load_error (RelativeSourcePath tplSpec) err] |}],
            false, log (EvReadFile (RelativeSourcePath tplSpec)) w)) ∧
  (∀ templateContents err,
     ReadFile (history w) sourceDir (RelativeSourcePath tplSpec) = Ok templateContents →
     templatewrapper_Parse (JustCopy tplSpec) templateContents templateName = Err err →
     out = ([{| FileSuccess := false; RelativeFilePath := RelativeTargetPath tplSpec;
                FileErrors := [parse_error (RelativeSourcePath tplSpec) err] |}],
            false, log (EvReadFile (RelativeSourcePath tplSpec)) w)).
Proof.
  intros templateName out. split; [|split].
  - destruct (unit_full tplSpec sourceDir targetDir w)
      as (new & evs & w' & Heq & _ & Hlen & _).
    subst out. by rewrite Heq.
  - intros err Hread. subst out. unfold renderSingleTemplate.
    cbn [parameters log history]. by rewrite Hread.
  - intros templateContents err Hread Hparse. subst out. unfold renderSingleTemplate.
    cbn [parameters log history]. fold templateName. by rewrite Hread, Hparse.
Qed.

Lemma read_paths_app evs1 evs2 : read_paths (evs1 ++ evs2) = read_paths evs1 ++ read_paths evs2.
Proof. apply omap_app. Qed.

(** An iteration reads no source file. *)
Lemma iteration_reads tplSpec templateName ext errExt renderedFiles allSuccessful tmpl
    targetDir w :
  ∃ evs,
    history (renderSingleTemplateIteration tplSpec templateName ext errExt renderedFiles
               allSuccessful tmpl targetDir w).2 = history w ++ evs ∧
    read_paths evs = [].
Proof.
  destruct (iteration_shape tplSpec templateName ext errExt renderedFiles allSuccessful
              tmpl targetDir w) as (new & ce & be & Heq & _ & _ & Hce & Hbe).
  rewrite Heq. eexists. split; [reflexivity|].
  change (read_paths (ce ++ be) = []). rewrite read_paths_app.
  destruct Hce as [-> | ->]; destruct Hbe as [->|(wr & -> & [->|(p0 & b0 & ->)])]; done.
Qed.

Lemma renderItems_reads tplSpec templateName tmplw targetDir items :
  ∀ counter renderedFiles allSuccessful w,
  ∃ evs,
    history (renderItems tplSpec templateName tmplw targetDir items counter renderedFiles
               allSuccessful w).2 = history w ++ evs ∧
    read_paths evs = [].
Proof.
  induction items as [|item items IH]; intros counter renderedFiles allSuccessful w.
  - exists []. by rewrite app_nil_r.
  - cbn [renderItems].
    destruct (iteration_reads tplSpec templateName ("_" +:+ Sprintf_d (counter + 1))
                (" for item #" +:+ Sprintf_d (counter + 1)) renderedFiles allSuccessful
                tmplw targetDir (set_parameter "item" item w)) as (evs1 & Hh1 & Hr1).
    destruct (renderSingleTemplateIteration _ _ _ _ _ _ _ _ _) as [[files1 ok1] w1].
    cbn [snd history set_parameter] in Hh1.
    destruct (IH (S counter) files1 ok1 w1) as (evs2 & Hh2 & Hr2).
    exists (evs1 ++ evs2). split.
    + by rewrite Hh2, Hh1, <- app_assoc.
    + by rewrite read_paths_app, Hr1, Hr2.
Qed.

(** A unit reads its source file, once. *)
Lemma unit_reads tplSpec sourceDir targetDir w :
  ∃ evs,
    history (renderSingleTemplate tplSpec sourceDir targetDir w).2 = history w ++ evs ∧
    read_paths evs = [RelativeSourcePath tplSpec].
Proof.
  unfold renderSingleTemplate. cbn [parameters log history].
  destruct (ReadFile _ _ _) as [templateContents|err];
    [|by exists [EvReadFile (RelativeSourcePath tplSpec)]].
  destruct (templatewrapper_Parse _ _ _) as [tmplw|err];
    [|by exists [EvReadFile (RelativeSourcePath tplSpec)]].
  destruct (WithItems tplSpec) as [|item items].
  - destruct (iteration_reads tplSpec (replace_slashes (RelativeSourcePath tplSpec)) "" ""
                [] true tmplw targetDir (log (EvReadFile (RelativeSourcePath tplSpec)) w))
      as (evs & Hh & Hr).
    exists ([EvReadFile (RelativeSourcePath tplSpec)] ++ evs). split.
    + rewrite Hh. cbn [log history]. by rewrite <- app_assoc.
    + by rewrite read_paths_app, Hr.
  - destruct (renderItems_reads tplSpec (replace_slashes (RelativeSourcePath tplSpec)) tmplw
                targetDir (item :: items) 0 [] true
                (log (EvReadFile (RelativeSourcePath tplSpec)) w)) as (evs & Hh & Hr).
    exists ([EvReadFile (RelativeSourcePath tplSpec)] ++ evs). split.
    + rewrite Hh. cbn [log history]. by rewrite <- app_assoc.
    + by rewrite read_paths_app, Hr.
Qed.

Lemma templates_reads templates sourceDir targetDir :
  ∀ renderedFiles allSuccessful w,
  ∃ evs,
    history (renderTemplates templates sourceDir targetDir renderedFiles allSuccessful w).2
    = history w ++ evs ∧
    read_paths evs = RelativeSourcePath <$> templates.
Proof.
  induction templates as [|tplSpec templates IH]; intros renderedFiles allSuccessful w.
  - exists []. by rewrite app_nil_r.
  - cbn [renderTemplates].
    destruct (unit_reads tplSpec sourceDir targetDir w) as (evs1 & Hh1 & Hr1).
    destruct (renderSingleTemplate tplSpec sourceDir targetDir w) as [[rendered success] w1].
    cbn [snd] in Hh1.
    destruct (IH (renderedFiles ++ rendered) (allSuccessful && success) w1)
      as (evs2 & Hh2 & Hr2).
    exists (evs1 ++ evs2). split.
    + by rewrite Hh2, Hh1, <- app_assoc.
    + by rewrite read_paths_app, Hr1, Hr2, fmap_cons.
Qed.

(** Units none of which can be loaded yield one failure each, in order. *)
Lemma templates_all_missing templates sourceDir targetDir :
  (∀ tplSpec h, tplSpec ∈ templates →
     ∃ err, ReadFile h sourceDir (RelativeSourcePath tplSpec) = Err err) →
  ∀ renderedFiles allSuccessful w,
    RelativeFilePath <$>
      (renderTemplates templates sourceDir targetDir renderedFiles allSuccessful w).1.1
    = (RelativeFilePath <$> renderedFiles) ++ (RelativeTargetPath <$> templates).
Proof.
  induction templates as [|tplSpec templates IH]; intros Hmissing renderedFiles allSuccessful w.
  - simpl. by rewrite app_nil_r.
  - cbn [renderTemplates]. unfold renderSingleTemplate at 1. cbn [parameters log history].
    destruct (Hmissing tplSpec (history w)) as (err & ->); [by left|].
    rewrite IH.
    + rewrite fmap_app, <- app_assoc. done.
    + intros tplSpec' h Hin. apply Hmissing. by right.
Qed.

(** X11 (lines 200-209): no unit stops the loop.  Whatever the units
    yield, [renderAllTemplates] reads the source of every declared unit,
    once each and in declared order; in particular, when none of the
    sources can be loaded, there is one failure per unit, in declared
    order, each under the unit's unrendered target path. *)
Theorem every_unit_is_processed genSpec sourceDir targetDir w :
  let out := renderAllTemplates genSpec sourceDir targetDir w in
  (∃ evs, history out.2 = history w ++ evs ∧
          read_paths evs = RelativeSourcePath <$> Templates genSpec) ∧
  ((∀ tplSpec h, tplSpec ∈ Templates genSpec →
      ∃ err, ReadFile h sourceDir (RelativeSourcePath tplSpec) = Err err) →
   RelativeFilePath <$> out.1.1 = RelativeTargetPath <$> Templates genSpec).
Proof.
  intros out. subst out. unfold renderAllTemplates. split.
  - apply templates_reads.
  - intros Hmissing.
    by rewrite (templates_all_missing _ _ _ Hmissing [] true w).
Qed.

(** X12 (lines 245-248, 262-269): when the target path renders and the
    condition, which is not empty, cannot be rendered, the iteration
    appends one failure that carries the rendered target path and the
    condition error, lowers the flag, and does not run the body. *)
Theorem condition_failure_is_reported tplSpec templateName ext errExt renderedFiles
    allSuccessful tmpl targetDir w targetPath err :
  let data := parameters w in
  let pathName := templateName +:+ "_path" +:+ ext in
  let condName := templateName +:+ "_condition" +:+ ext in
  renderString data pathName (RelativeTargetPath tplSpec) = (targetPath, None) →
  Condition tplSpec ≠ "" →
  (renderString data condName (Condition tplSpec)).2 = Some err →
  renderSingleTemplateIteration tplSpec templateName ext errExt renderedFiles
    allSuccessful tmpl targetDir w
  = (renderedFiles ++
       [{| FileSuccess := false; RelativeFilePath := targetPath;
           FileErrors := [condition_error (Condition tplSpec) errExt err] |}],
     false,
     log (EvRenderString condName (Condition tplSpec) data)
       (log (EvRenderString pathName (RelativeTargetPath tplSpec) data) w)).
Proof.
  intros data pathName condName Hp Hc Herr. apply renderString_error in Herr.
  unfold renderSingleTemplateIteration. cbn [parameters log history].
  fold data pathName condName. rewrite Hp, (bool_decide_false _ Hc).
  cbn [parameters log history]. fold data.
  unfold evaluateCondition. rewrite (bool_decide_false _ Hc), Herr. done.
Qed.

(** X13 (line 212): the template name of a unit is its source path with
    every slash replaced by an underscore: it has the length of the path
    and no slash, and a path without slash is its own template name. *)
Theorem replace_slashes_spec s :
  String.length (replace_slashes s) = String.length s ∧
  ("/"%char ∉ list_ascii_of_string (replace_slashes s)) ∧
  (("/"%char ∉ list_ascii_of_string s) → replace_slashes s = s).
Proof.
  induction s as [|c s (IHlen & IHno & IHid)]; simpl.
  - split; [done|]. split; [apply not_elem_of_nil|done].
  - split; [by rewrite IHlen|]. split.
    + apply not_elem_of_cons. split; [|done]. by case_bool_decide.
    + intros Hno. apply not_elem_of_cons in Hno as [Hne Hno].
      rewrite bool_decide_false by done. by rewrite (IHid Hno).
Qed.

End TemplateLoopMore.

(** * The further properties on the example generators *)

Section MoreWitnesses.
Import Examples MoreExamples.

Lemma validated_map_has_declared_keys_witness :
  constructAndValidateParameterMap gen_main spec_stray = Ok supplied_name ∧
  Parameters spec_stray !! "stray" = Some (VString "zzz") ∧
  dom supplied_name = dom (Variables gen_main) ∧
  supplied_name !! "stray" = None.
Proof.
  assert (Hrun : constructAndValidateParameterMap gen_main spec_stray = Ok supplied_name)
    by (vm_compute; reflexivity).
  split; [exact Hrun|]. split; [vm_compute; reflexivity|].
  destruct (validated_map_has_declared_keys gen_main spec_stray supplied_name Hrun)
    as (Hdom & _ & _ & Hout).
  split; [exact Hdom|]. apply Hout. vm_compute; reflexivity.
Defined.

Lemma nil_entry_is_required_error_witness :
  Variables gen_region !! "region" = Some var_region ∧
  Parameters spec_region_nil !! "region" = Some VNil ∧
  DefaultValue var_region = VString "eu" ∧
  constructAndValidateParameterMap gen_region spec_region_nil
  = Err "parameter 'region' is required but missing".
Proof.
  assert (Hk : Variables gen_region !! "region" = Some var_region)
    by (vm_compute; reflexivity).
  assert (Hn : Parameters spec_region_nil !! "region" = Some VNil)
    by (vm_compute; reflexivity).
  split; [exact Hk|]. split; [exact Hn|]. split; [reflexivity|].
  destruct (nil_entry_is_required_error gen_region spec_region_nil "region" var_region
              Hk Hn) as (_ & Honly).
  apply Honly. intros k' v' Hne Hk'. exfalso.
  unfold gen_region in Hk'. cbn [Variables] in Hk'.
  apply lookup_singleton_Some in Hk' as [Heq _]. by destruct Hne.
Defined.

Lemma validated_map_is_render_spec_witness :
  constructRenderSpecWithValuesOrDefaults "main" gen_main supplied_name VNil
  = Ok spec_supplied ∧
  constructAndValidateParameterMap gen_main spec_supplied = Ok supplied_name ∧
  supplied_name = Parameters spec_supplied.
Proof.
  assert (Hr : constructRenderSpecWithValuesOrDefaults "main" gen_main supplied_name VNil
               = Ok spec_supplied) by (vm_compute; reflexivity).
  assert (Hv : constructAndValidateParameterMap gen_main spec_supplied = Ok supplied_name)
    by (vm_compute; reflexivity).
  split; [exact Hr|]. split; [exact Hv|].
  exact (validated_map_is_render_spec "main" gen_main supplied_name VNil spec_supplied
           supplied_name Hr Hv).
Defined.

Lemma non_nil_default_spec_fails_only_on_patterns_witness :
  is_nil (VString "") = false ∧
  constructRenderSpecWithValuesOrDefaults "defaults" gen_defaults ∅ (VString "")
  = Ok spec_defaults ∧
  Variables gen_defaults !! "owner" = Some var_owner ∧
  ∃ val, Parameters spec_defaults !! "owner" = Some val ∧ val ≠ VNil.
Proof.
  assert (Hr : constructRenderSpecWithValuesOrDefaults "defaults" gen_defaults ∅ (VString "")
               = Ok spec_defaults) by (vm_compute; reflexivity).
  assert (Hk : Variables gen_defaults !! "owner" = Some var_owner)
    by (vm_compute; reflexivity).
  split; [reflexivity|]. split; [exact Hr|]. split; [exact Hk|].
  destruct (non_nil_default_spec_fails_only_on_patterns "defaults" gen_defaults ∅
              (VString "") spec_defaults eq_refl Hr) as (Hnn & _).
  exact (Hnn "owner" var_owner Hk).
Defined.

Lemma write_values_success_is_valid_witness :
  Success (WriteRenderSpecWithValues (request "out.yaml") "main" supplied_name) = true ∧
  ∃ genSpec rs,
    ObtainGeneratorSpec "generators" "main" = Ok genSpec ∧
    constructRenderSpecWithValuesOrDefaults "main" genSpec supplied_name VNil = Ok rs ∧
    (∀ k, is_Some (supplied_name !! k) → is_Some (Variables genSpec !! k)) ∧
    dom (Parameters rs) = dom (Variables genSpec).
Proof.
  assert (Hs : Success (WriteRenderSpecWithValues (request "out.yaml") "main" supplied_name)
               = true) by (vm_compute; reflexivity).
  split; [exact Hs|].
  destruct (write_values_success_is_valid (request "out.yaml") "main" supplied_name Hs)
    as (genSpec & rs & targetFile & Hg & Hr & _ & Hdecl & Hdom & _).
  exists genSpec, rs. split; [exact Hg|]. split; [exact Hr|]. split; [exact Hdecl|exact Hdom].
Defined.

Lemma write_values_requires_parameters_witness :
  ObtainGeneratorSpec "generators" "main" = Ok gen_main ∧
  Variables gen_main !! "name" = Some var_name ∧
  DefaultValue var_name = VNil ∧
  go_index supplied_only_bogus "name" = VNil ∧
  ∃ err,
    WriteRenderSpecWithValues (request "out.yaml") "main" supplied_only_bogus
    = {| Success := false; RenderedFiles := []; Errors := [err] |}.
Proof.
  assert (Hg : ObtainGeneratorSpec (SourceBaseDir (request "out.yaml")) "main" = Ok gen_main)
    by (vm_compute; reflexivity).
  assert (Hk : Variables gen_main !! "name" = Some var_name) by (vm_compute; reflexivity).
  assert (Hn : go_index supplied_only_bogus "name" = VNil) by (vm_compute; reflexivity).
  split; [exact Hg|]. split; [exact Hk|]. split; [reflexivity|]. split; [exact Hn|].
  destruct (write_values_requires_parameters (request "out.yaml") "main"
              supplied_only_bogus gen_main "name" var_name Hg Hk eq_refl Hn) as (Hfail & _).
  exact Hfail.
Defined.

Lemma render_results_well_formed_witness :
  Forall well_formed_result (RenderedFiles (Render (request "broken.yaml")).1).
Proof. exact (render_results_well_formed (request "broken.yaml")). Defined.

Lemma render_writes_are_reported_witness :
  writes_reported (RenderedFiles (Render (request "main.yaml")).1)
    (history (Render (request "main.yaml")).2).
Proof. exact (render_writes_are_reported (request "main.yaml")). Defined.

Lemma unit_results_bounded_witness :
  ReadFile [] "generators" "gone.tmpl" = Err "open gone.tmpl: no such file or directory" ∧
  length (WithItems unit_missing_items) = 3%nat ∧
  renderSingleTemplate unit_missing_items "generators" "target" (world ∅)
  = ([{| FileSuccess := false; RelativeFilePath := "y_{{.item}}.txt";
         FileErrors := ["failed to load template gone.tmpl: open gone.tmpl: no such file or directory"] |}],
     false, log (EvReadFile "gone.tmpl") (world ∅)).
Proof.
  assert (Hr : ReadFile (history (world ∅)) "generators"
                 (RelativeSourcePath unit_missing_items)
               = Err "open gone.tmpl: no such file or directory")
    by (vm_compute; reflexivity).
  split; [exact Hr|]. split; [reflexivity|].
  destruct (unit_results_bounded unit_missing_items "generators" "target" (world ∅))
    as (_ & Hload & _).
  exact (Hload _ Hr).
Defined.

Lemma every_unit_is_processed_witness :
  (∀ tplSpec h, tplSpec ∈ Templates gen_two_missing →
     ∃ err, ReadFile h "generators" (RelativeSourcePath tplSpec) = Err err) ∧
  (∃ evs,
     history (renderAllTemplates gen_two_missing "generators" "target" (world ∅)).2
     = [] ++ evs ∧
     read_paths evs = ["missing.tmpl"; "gone.tmpl"]) ∧
  RelativeFilePath <$>
    (renderAllTemplates gen_two_missing "generators" "target" (world ∅)).1.1
  = ["x.txt"; "y_{{.item}}.txt"].
Proof.
  assert (Hmissing : ∀ tplSpec h, tplSpec ∈ Templates gen_two_missing →
            ∃ err, ReadFile h "generators" (RelativeSourcePath tplSpec) = Err err).
  { intros tplSpec h Hin. unfold gen_two_missing in Hin. cbn [Templates] in Hin.
    apply elem_of_cons in Hin as [-> | Hin].
    - by exists "open missing.tmpl: no such file or directory".
    - apply list_elem_of_singleton in Hin as ->.
      by exists "open gone.tmpl: no such file or directory". }
  split; [exact Hmissing|].
  destruct (every_unit_is_processed gen_two_missing "generators" "target" (world ∅))
    as (Hreads & Hresults).
  split; [exact Hreads|]. exact (Hresults Hmissing).
Defined.

Lemma condition_failure_is_reported_witness :
  renderString params_skip "b.tmpl_path" "b.txt" = ("b.txt", None) ∧
  Condition unit_badcond ≠ "" ∧
  (renderString params_skip "b.tmpl_condition" "{{.mode").2
  = Some "template: b.tmpl_condition: unclosed action" ∧
  renderSingleTemplateIteration unit_badcond "b.tmpl" "" "" [] true tmpl_b "target"
    (world params_skip)
  = ([{| FileSuccess := false; RelativeFilePath := "b.txt";
         FileErrors := ["error evaluating condition from '{{.mode': template: b.tmpl_condition: unclosed action"] |}],
     false,
     log (EvRenderString "b.tmpl_condition" "{{.mode" params_skip)
       (log (EvRenderString "b.tmpl_path" "b.txt" params_skip) (world params_skip))).
Proof.
  assert (Hp : renderString (parameters (world params_skip)) ("b.tmpl" +:+ "_path" +:+ "")
                 (RelativeTargetPath unit_badcond) = ("b.txt", None))
    by (vm_compute; reflexivity).
  assert (Hc : Condition unit_badcond ≠ "") by discriminate.
  assert (He : (renderString (parameters (world params_skip))
                  ("b.tmpl" +:+ "_condition" +:+ "") (Condition unit_badcond)).2
               = Some "template: b.tmpl_condition: unclosed action")
    by (vm_compute; reflexivity).
  split; [exact Hp|]. split; [exact Hc|]. split; [exact He|].
  exact (condition_failure_is_reported unit_badcond "b.tmpl" "" "" [] true tmpl_b "target"
           (world params_skip) "b.txt" _ Hp Hc He).
Defined.

End MoreWitnesses.
